(** * quick_start.py: the bootstrap script of TrustLensAI

    A shallow embedding of [src/quick_start.py] and the properties of its
    environment loader, environment validator, dependency installer and
    database initializer.

    Python values are modelled as follows.
    - A [str] is the list of its Unicode code points ([N]).
    - [os.environ] is a finite map from [str] to [str] (POSIX: keys are
      case sensitive).
    - The file system is a finite map from paths to nodes; a node records
      what [Path.read_text(encoding="utf-8")] yields for it: the decoded
      text, or the exception the read raises.
    - [logging] appends records (level, message) to a log.
    - [subprocess.run] asks the operating system, an oracle carried by the
      state, and records every invocation.
    - Exceptions are values; a computation maps a state to an outcome
      (a returned value or a raised exception) and a state. A raised
      exception keeps the state reached so far, as in Python. *)

From Stdlib Require Import NArith ZArith String Ascii Lia.
From stdpp Require Import base option list gmap.

Local Open Scope N_scope.

(** ** Python strings *)

Module PyStr.

Abbreviation str := (list N).

(** An ASCII literal as a [str]. *)
Definition lit (s : string) : str :=
  List.map N_of_ascii (list_ascii_of_string s).

Definition NUL : N := 0.
Definition DQUOTE : N := 34.
Definition SQUOTE : N := 39.
Definition HASH : N := 35.
Definition EQUALS : N := 61.

(** [str.isspace] on one character, which is what [str.strip()] removes:
    U+0009..U+000D, U+001C..U+0020, U+0085, U+00A0, U+1680,
    U+2000..U+200A, U+2028, U+2029, U+202F, U+205F, U+3000. *)
Definition isspace (c : N) : bool :=
  ((9 <=? c) && (c <=? 13)) || ((28 <=? c) && (c <=? 32))
  || (c =? 133) || (c =? 160) || (c =? 5760)
  || ((8192 <=? c) && (c <=? 8202))
  || (c =? 8232) || (c =? 8233) || (c =? 8239) || (c =? 8287)
  || (c =? 12288).

(** The line boundaries of [str.splitlines]: LF, VT, FF, CR, FS, GS, RS,
    NEL, LS and PS; CR LF counts as one boundary. *)
Definition islinebreak (c : N) : bool :=
  ((10 <=? c) && (c <=? 13)) || ((28 <=? c) && (c <=? 30))
  || (c =? 133) || (c =? 8232) || (c =? 8233).

(** [c in chars] for a character [c]. *)
Definition char_in (chars : str) (c : N) : bool :=
  existsb (N.eqb c) chars.

Fixpoint lstrip_by (p : N -> bool) (s : str) : str :=
  match s with
  | [] => []
  | c :: s' => if p c then lstrip_by p s' else s
  end.

Fixpoint rstrip_by (p : N -> bool) (s : str) : str :=
  match s with
  | [] => []
  | c :: s' =>
      match rstrip_by p s' with
      | [] => if p c then [] else [c]
      | r => c :: r
      end
  end.

Definition strip_by (p : N -> bool) (s : str) : str :=
  rstrip_by p (lstrip_by p s).

(** [s.strip()] *)
Definition strip (s : str) : str := strip_by isspace s.

(** [s.strip(chars)] *)
Definition strip_chars (chars : str) (s : str) : str :=
  strip_by (char_in chars) s.

(** [s.startswith(prefix)] *)
Fixpoint startswith (pre s : str) : bool :=
  match pre, s with
  | [], _ => true
  | _ :: _, [] => false
  | a :: pre', b :: s' => (a =? b) && startswith pre' s'
  end.

(** The first occurrence of [sep] in [s]: the text before it and the text
    after it, if there is one. *)
Fixpoint find_split (sep s : str) : option (str * str) :=
  if startswith sep s then Some ([], drop (length sep) s)
  else
    match s with
    | [] => None
    | c :: s' =>
        match find_split sep s' with
        | Some (a, b) => Some (c :: a, b)
        | None => None
        end
    end.

(** [sub in s] *)
Definition str_in (sub s : str) : bool :=
  match find_split sub s with Some _ => true | None => false end.

(** [s.split(sep, 1)] for a non-empty [sep]. *)
Definition split1 (sep s : str) : list str :=
  match find_split sep s with
  | Some (a, b) => [a; b]
  | None => [s]
  end.

(** [s.splitlines()]: the lines of [s] without their boundaries; a final
    boundary opens no empty last line. *)
Fixpoint splitlines (s : str) : list str :=
  match s with
  | [] => []
  | c :: s' =>
      if islinebreak c then
        [] :: match s' with
              | d :: s'' =>
                  if (c =? 13) && (d =? 10) then splitlines s''
                  else splitlines s'
              | [] => []
              end
      else
        match splitlines s' with
        | [] => [[c]]
        | l :: ls => (c :: l) :: ls
        end
  end.

(** Truth value of a [str]: non-empty. *)
Definition truthy (s : str) : bool :=
  match s with [] => false | _ => true end.

End PyStr.
Export PyStr.


(** ** Exceptions, states and computations *)

(** The exception classes the script meets, with [Exception] at the root. *)
Inductive exn_class :=
  | Exception
  | OSError
  | FileNotFoundError
  | PermissionError
  | ValueError
  | UnicodeDecodeError
  | SubprocessError
  | CalledProcessError.

(** The direct base class. *)
Definition base_class (c : exn_class) : option exn_class :=
  match c with
  | Exception => None
  | OSError => Some Exception
  | FileNotFoundError => Some OSError
  | PermissionError => Some OSError
  | ValueError => Some Exception
  | UnicodeDecodeError => Some ValueError
  | SubprocessError => Some Exception
  | CalledProcessError => Some SubprocessError
  end.

Definition exn_class_eqb (a b : exn_class) : bool :=
  match a, b with
  | Exception, Exception | OSError, OSError
  | FileNotFoundError, FileNotFoundError
  | PermissionError, PermissionError | ValueError, ValueError
  | UnicodeDecodeError, UnicodeDecodeError
  | SubprocessError, SubprocessError
  | CalledProcessError, CalledProcessError => true
  | _, _ => false
  end.

(** [issubclass(c, d)]; the hierarchy is at most three classes deep. *)
Definition issubclass (c d : exn_class) : bool :=
  exn_class_eqb c d
  || match base_class c with
     | None => false
     | Some c1 =>
         exn_class_eqb c1 d
         || match base_class c1 with
            | None => false
            | Some c2 => exn_class_eqb c2 d
            end
     end.

(** An exception object: its class, the message it was built with and, for
    [CalledProcessError], the exit status and the captured [stderr]. *)
Record exn := mk_exn {
  exn_cls : exn_class;
  exn_msg : str;
  exn_returncode : Z;
  exn_stderr : str
}.

Definition simple_exn (c : exn_class) (msg : str) : exn :=
  mk_exn c msg 0%Z [].

Definition isinstance (e : exn) (c : exn_class) : bool :=
  issubclass (exn_cls e) c.

(** A file system node: what [read_text(encoding="utf-8")] does on it.
    [Readable t]: a regular file for which the call returns the text [t]
    (decoded, with the line endings as text mode delivers them);
    [Unreadable e]: the path exists and reading it raises [e] (an
    [OSError], or a [UnicodeDecodeError] for bytes that are not UTF-8). *)
Inductive node :=
  | Readable (text : str)
  | Unreadable (e : exn).

Inductive level := INFO | WARNING | ERROR.

(** A piece of a formatted log message: literal text, or [{e}] for an
    exception [e]. *)
Inductive piece :=
  | Text (s : str)
  | StrOf (e : exn).

(** Why [subprocess.run] can fail other than by the exit status: the
    program to execute does not exist, it may not be executed, or its
    output is not text in the expected encoding. *)
Inductive spawn_error := ENOENT | EACCES | EDECODE.

Definition spawn_exn (err : spawn_error) : exn :=
  match err with
  | ENOENT => simple_exn FileNotFoundError (lit "No such file or directory")
  | EACCES => simple_exn PermissionError (lit "Permission denied")
  | EDECODE => simple_exn UnicodeDecodeError (lit "invalid start byte")
  end.

(** What the operating system answers to a process invocation: the process
    ran and exited, or [subprocess.run] fails. *)
Inductive proc_result :=
  | Exited (returncode : Z) (stdout stderr : str)
  | Failed (err : spawn_error).

Record World := mk_World {
  environ : gmap str str;
  files : gmap str node;
  logs : list (level * list piece);
  spawned : list (list str);
  sys_executable : str;
  os_exec : list (list str) -> list str -> proc_result
}.

Inductive outcome (A : Type) :=
  | Ret (a : A)
  | Raise (e : exn).
Arguments Ret {A} a.
Arguments Raise {A} e.

Definition M (A : Type) : Type := World -> outcome A * World.

Definition ret {A} (a : A) : M A := fun w => (Ret a, w).

Definition raise {A} (e : exn) : M A := fun w => (Raise e, w).

Definition bind {A B} (m : M A) (k : A -> M B) : M B :=
  fun w =>
    match m w with
    | (Ret a, w') => k a w'
    | (Raise e, w') => (Raise e, w')
    end.

Declare Scope py_scope.
Delimit Scope py_scope with py.
Notation "x <- m ;; k" := (bind m (fun x => k))
  (at level 100, m at next level, right associativity) : py_scope.
Notation "m ;; k" := (bind m (fun _ => k))
  (at level 100, right associativity) : py_scope.
Local Open Scope py_scope.

(** The first [except] clause whose class matches. *)
Fixpoint select_handler {A} (hs : list (exn_class * (exn -> M A))) (e : exn)
  : option (exn -> M A) :=
  match hs with
  | [] => None
  | (c, h) :: hs' => if isinstance e c then Some h else select_handler hs' e
  end.

(** [try: body  except C1 as e: h1  except C2 as e: h2 ...] *)
Definition try_except {A} (body : M A)
    (hs : list (exn_class * (exn -> M A))) : M A :=
  fun w =>
    match body w with
    | (Ret a, w') => (Ret a, w')
    | (Raise e, w') =>
        match select_handler hs e with
        | Some h => h e w'
        | None => (Raise e, w')
        end
    end.

(** [for x in xs: body(x)] *)
Fixpoint for_each {X} (xs : list X) (body : X -> M unit) : M unit :=
  match xs with
  | [] => ret tt
  | x :: xs' => body x ;; for_each xs' body
  end.

(** ** The runtime operations the script calls *)

(** [path.exists()]; the working directory is taken to be searchable, so
    the call returns. *)
Definition path_exists (path : str) : M bool :=
  fun w =>
    (Ret match files w !! path with Some _ => true | None => false end, w).

(** [path.read_text(encoding="utf-8")] *)
Definition read_text (path : str) : M str :=
  fun w =>
    match files w !! path with
    | Some (Readable t) => (Ret t, w)
    | Some (Unreadable e) => (Raise e, w)
    | None => (Raise (simple_exn FileNotFoundError path), w)
    end.

(** [with path.open('w', encoding='utf-8') as f: f.write(text)]: the path
    holds a regular file with that text afterwards. The script writes only
    to a path that does not exist; the working directory is taken to be
    writable. *)
Definition write_text (path text : str) : M unit :=
  fun w =>
    (Ret tt,
     mk_World (environ w) (<[path := Readable text]> (files w)) (logs w)
       (spawned w) (sys_executable w) (os_exec w)).

(** [key in os.environ] *)
Definition environ_contains (key : str) : M bool :=
  fun w =>
    (Ret match environ w !! key with Some _ => true | None => false end, w).

(** [os.environ[key] = value]. The assignment calls [putenv], which refuses
    a key or a value with an embedded NUL, an empty key and a key with an
    equals sign; each refusal is a [ValueError] and leaves the mapping as
    it was. *)
Definition environ_setitem (key value : str) : M unit :=
  fun w =>
    if char_in key NUL || char_in value NUL then
      (Raise (simple_exn ValueError (lit "embedded null byte")), w)
    else if negb (truthy key) || char_in key EQUALS then
      (Raise (simple_exn ValueError (lit "illegal environment variable name")),
       w)
    else
      (Ret tt,
       mk_World (<[key := value]> (environ w)) (files w) (logs w)
         (spawned w) (sys_executable w) (os_exec w)).

(** [os.getenv(key)] *)
Definition os_getenv (key : str) : M (option str) :=
  fun w => (Ret (environ w !! key), w).

(** [logger.log(lvl, msg)]; the configured level is INFO, so every record
    of the script is emitted. *)
Definition logger_log (lvl : level) (msg : list piece) : M unit :=
  fun w =>
    (Ret tt,
     mk_World (environ w) (files w) (logs w ++ [(lvl, msg)])
       (spawned w) (sys_executable w) (os_exec w)).

Definition logger_info := logger_log INFO.
Definition logger_warning := logger_log WARNING.
Definition logger_error := logger_log ERROR.

(** [subprocess.run(argv, check=True, capture_output=True, text=True)]:
    the invocation is recorded; a process that exits with a status other
    than zero raises [CalledProcessError] carrying the captured [stderr];
    a failure of the invocation itself raises its exception. What the
    process does to the file system is not part of the model. The value returned on success is the captured output. *)
Definition subprocess_run (argv : list str) : M (str * str) :=
  fun w =>
    let w' :=
      mk_World (environ w) (files w) (logs w) (spawned w ++ [argv])
        (sys_executable w) (os_exec w) in
    match os_exec w (spawned w) argv with
    | Exited rc out err =>
        if (rc =? 0)%Z then (Ret (out, err), w')
        else (Raise (mk_exn CalledProcessError [] rc err), w')
    | Failed err => (Raise (spawn_exn err), w')
    end.

(** [a, b = xs] *)
Definition unpack2 (xs : list str) : M (str * str) :=
  match xs with
  | [a; b] => ret (a, b)
  | [] | [_] =>
      raise (simple_exn ValueError (lit "not enough values to unpack"))
  | _ => raise (simple_exn ValueError (lit "too many values to unpack"))
  end.

(** Truth value of [os.getenv]'s result: [None] and the empty string are
    false. *)
Definition truthy_opt (o : option str) : bool :=
  match o with Some s => truthy s | None => false end.

(** ** Message and file constants of the script *)

Definition WARNING_SIGN : str := [9888; 65039].
Definition CROSS_MARK : str := [10060].
Definition CHECK_MARK : str := [9989].
Definition MEMO : str := [128221].

Definition DOTENV : str := lit ".env".
Definition GOOGLE_API_KEY : str := lit "GOOGLE_API_KEY".

Definition env_template_lines : list str :=
  [ lit "# TrustLensAI  Environment Variables";
    lit "GOOGLE_API_KEY=your_gemini_api_key_here";
    lit "SECRET_KEY=change-this-in-production";
    lit "HOST=0.0.0.0";
    lit "PORT=5001";
    lit "DEBUG=True" ].

(** The triple-quoted literal: every line ends with a line feed. *)
Definition env_template : str :=
  concat (List.map (fun l => l ++ [10]) env_template_lines).

(** ** The script *)

(** The body of the loop of [_load_env_file] for one line [raw]. *)
Definition load_line (raw : str) : M unit :=
  let line := strip raw in
  if negb (truthy line) || startswith (lit "#") line
     || negb (str_in (lit "=") line)
  then ret tt
  else
    kv <- unpack2 (split1 (lit "=") line) ;;
    let k := strip (fst kv) in
    let v := strip_chars [SQUOTE] (strip_chars [DQUOTE] (strip (snd kv))) in
    if truthy k then
      present <- environ_contains k ;;
      if negb present then environ_setitem k v else ret tt
    else ret tt.

(** The [try] block of [_load_env_file]. *)
Definition load_env_body (env_path : str) : M unit :=
  text <- read_text env_path ;;
  for_each (splitlines text) load_line.

Definition _load_env_file (env_path : str) : M unit :=
  ex <- path_exists env_path ;;
  if negb ex then ret tt
  else
    try_except (load_env_body env_path)
      [ (Exception,
         fun e =>
           logger_warning
             [Text (WARNING_SIGN ++ lit "  Could not parse .env file: ");
              StrOf e]) ].

Definition check_environment_variables : M bool :=
  logger_info [Text (lit "Checking environment variables...")] ;;
  _load_env_file DOTENV ;;
  google_api_key <- os_getenv GOOGLE_API_KEY ;;
  if negb (truthy_opt google_api_key) then
    logger_warning
      [Text (WARNING_SIGN ++ lit "  GOOGLE_API_KEY not found in environment")] ;;
    logger_info
      [Text (lit "Please set GOOGLE_API_KEY for AI agent functionality")] ;;
    logger_info
      [Text (lit "Get your API key from: https://makersuite.google.com/app/apikey")] ;;
    ex <- path_exists DOTENV ;;
    (if negb ex then
       write_text DOTENV env_template ;;
       logger_info
         [Text (MEMO ++ lit " Created .env template file - please update with your API key")]
     else
       logger_info
         [Text (MEMO ++ lit " .env already exists; leaving it unchanged. Update GOOGLE_API_KEY in that file.")]) ;;
    ret false
  else
    logger_info [Text (CHECK_MARK ++ lit " Environment variables configured")] ;;
    ret true.

Definition pip_install_argv (exe : str) : list str :=
  [exe; lit "-m"; lit "pip"; lit "install"; lit "-r";
   lit "backend/requirements.txt"].

Definition install_dependencies : M bool :=
  logger_info [Text (lit "Installing Python dependencies...")] ;;
  try_except
    (exe <- (fun w => (Ret (sys_executable w), w)) ;;
     subprocess_run (pip_install_argv exe) ;;
     logger_info
       [Text (CHECK_MARK ++ lit " Python dependencies installed successfully")] ;;
     ret true)
    [ (CalledProcessError,
       fun e =>
         logger_error
           [Text (CROSS_MARK ++ lit " Failed to install dependencies: ");
            Text (exn_stderr e)] ;;
         ret false);
      (FileNotFoundError,
       fun _ =>
         logger_error [Text (CROSS_MARK ++ lit " requirements.txt not found")] ;;
         ret false) ].

Definition setup_database_argv (exe : str) : list str :=
  [exe; lit "setup_database.py"].

Definition setup_chromadb_argv (exe : str) : list str :=
  [exe; lit "setup_chromadb.py"].

Definition setup_databases : M bool :=
  logger_info [Text (lit "Initializing databases...")] ;;
  try_except
    (logger_info [Text (lit "Setting up SQLite governance database...")] ;;
     exe <- (fun w => (Ret (sys_executable w), w)) ;;
     subprocess_run (setup_database_argv exe) ;;
     logger_info [Text (CHECK_MARK ++ lit " SQLite database initialized")] ;;
     logger_info [Text (lit "Setting up ChromaDB knowledge store...")] ;;
     exe' <- (fun w => (Ret (sys_executable w), w)) ;;
     subprocess_run (setup_chromadb_argv exe') ;;
     logger_info
       [Text (CHECK_MARK ++ lit " ChromaDB knowledge store initialized")] ;;
     ret true)
    [ (CalledProcessError,
       fun e =>
         logger_error
           [Text (CROSS_MARK ++ lit " Database setup failed: ");
            Text (exn_stderr e)] ;;
         ret false) ].


(** ** Derived notions used in the statements *)

(** The value the loader computes from the text after the separator:
    [v.strip()], then [strip] with the double quote as its character set,
    then [strip] with the single quote as its character set. *)
Definition unquote (v : str) : str :=
  strip_chars [SQUOTE] (strip_chars [DQUOTE] (strip v)).

(** The pure part of [load_line]: the key and the value a line assigns,
    for a line that passes the loop's filters and has a non-empty key. *)
Definition parse_line (raw : str) : option (str * str) :=
  let line := strip raw in
  if negb (truthy line) || startswith (lit "#") line
     || negb (str_in (lit "=") line)
  then None
  else
    match find_split (lit "=") line with
    | Some (a, b) =>
        if truthy (strip a) then Some (strip a, unquote b) else None
    | None => None
    end.

(** The state after [os.environ[k] = v] succeeded. *)
Definition with_environ (env : gmap str str) (w : World) : World :=
  mk_World env (files w) (logs w) (spawned w) (sys_executable w) (os_exec w).

(** The state after a log record was appended. *)
Definition with_log (record : level * list piece) (w : World) : World :=
  mk_World (environ w) (files w) (logs w ++ [record]) (spawned w)
    (sys_executable w) (os_exec w).

(** The warning [_load_env_file] logs for a caught exception [e]. *)
Definition parse_warning (e : exn) : level * list piece :=
  (WARNING,
   [Text (WARNING_SIGN ++ lit "  Could not parse .env file: "); StrOf e]).

(** The specification's wording of the quote handling, "strip one layer of
    matching surrounding quote characters (single or double)": a value of
    at least two characters that begins and ends with the same quote
    character loses that first and that last character; any other value
    is kept. *)
Definition spec_unquote (v : str) : str :=
  match v with
  | q :: rest =>
      if (q =? DQUOTE) || (q =? SQUOTE) then
        match reverse rest with
        | q' :: mid => if q' =? q then reverse mid else v
        | [] => v
        end
      else v
  | [] => v
  end.

(** A state with the given environment and file system, an empty log, no
    invocation so far, and an operating system that answers [answer]. *)
Definition world_of (env : gmap str str) (fs : gmap str node)
    (answer : list (list str) -> list str -> proc_result) : World :=
  mk_World env fs [] [] (lit "/usr/bin/python3") answer.

Definition all_succeed : list (list str) -> list str -> proc_result :=
  fun _ _ => Exited 0 [] [].

(** [extends w w']: [w'] differs from [w] at most by bindings added to the
    environment. *)
Definition extends (w w' : World) : Prop :=
  environ w ⊆ environ w'
  /\ files w' = files w
  /\ logs w' = logs w
  /\ spawned w' = spawned w
  /\ sys_executable w' = sys_executable w
  /\ os_exec w' = os_exec w.

(** The first record of [check_environment_variables]. *)
Definition checking_record : level * list piece :=
  (INFO, [Text (lit "Checking environment variables...")]).

(** The state in which [check_environment_variables] reads the key: after
    its first log record and the call of the loader. *)
Definition loaded (w : World) : World :=
  snd (_load_env_file DOTENV (with_log checking_record w)).

(** The assignments a text holds, as the loader reads them. *)
Definition assignments (text : str) : list (str * str) :=
  omap parse_line (splitlines text).

(** The records [install_dependencies] and [setup_databases] log. *)
Definition installing_record : level * list piece :=
  (INFO, [Text (lit "Installing Python dependencies...")]).

Definition install_failed_record (stderr : str) : level * list piece :=
  (ERROR,
   [Text (CROSS_MARK ++ lit " Failed to install dependencies: ");
    Text stderr]).

Definition not_found_record : level * list piece :=
  (ERROR, [Text (CROSS_MARK ++ lit " requirements.txt not found")]).

Definition initializing_record : level * list piece :=
  (INFO, [Text (lit "Initializing databases...")]).

Definition sqlite_record : level * list piece :=
  (INFO, [Text (lit "Setting up SQLite governance database...")]).

Definition setup_failed_record (stderr : str) : level * list piece :=
  (ERROR, [Text (CROSS_MARK ++ lit " Database setup failed: "); Text stderr]).

(** What the operating system answers when [install_dependencies] runs the
    package manager in state [w]. *)
Definition pip_answer (w : World) : proc_result :=
  os_exec w (spawned w) (pip_install_argv (sys_executable w)).

(** What it answers to the first and to the second invocation of
    [setup_databases]. *)
Definition database_answer (w : World) : proc_result :=
  os_exec w (spawned w) (setup_database_argv (sys_executable w)).

Definition chromadb_answer (w : World) : proc_result :=
  os_exec w (spawned w ++ [setup_database_argv (sys_executable w)])
    (setup_chromadb_argv (sys_executable w)).

(** A text that neither begins nor ends with a quote character. *)
Definition isquote (c : N) : bool := (c =? DQUOTE) || (c =? SQUOTE).

Definition no_edge_quote (s : str) : bool :=
  match s with
  | [] => true
  | c :: _ =>
      negb (isquote c)
      && match reverse s with d :: _ => negb (isquote d) | [] => true end
  end.

(** Sample states of the statements below. *)

(** [FOO] is set by the operating system; the file assigns it again. *)
Definition world_foo_set : World :=
  world_of {[ lit "FOO" := lit "old" ]}
    {[ DOTENV := Readable (lit "FOO=new" ++ [10] ++ lit "BAR=1" ++ [10]) ]}
    all_succeed.

(** The configuration file is not valid UTF-8. *)
Definition undecodable : exn :=
  simple_exn UnicodeDecodeError (lit "invalid start byte").

Definition world_undecodable : World :=
  world_of ∅ {[ DOTENV := Unreadable undecodable ]} all_succeed.

(** The file holds the single line [FOO="bar"]. *)
Definition foo_bar_line : str :=
  lit "FOO=" ++ [DQUOTE] ++ lit "bar" ++ [DQUOTE].

Definition world_foo_bar (env : gmap str str) : World :=
  world_of env {[ DOTENV := Readable (foo_bar_line ++ [10]) ]} all_succeed.

(** The same key on three lines, after a comment and another key. *)
Definition three_ports : str :=
  lit "# ports" ++ [10] ++ lit "HOST=example" ++ [10]
  ++ lit "PORT=1" ++ [10] ++ lit "PORT=2" ++ [10] ++ lit "PORT = 3" ++ [10].

Definition world_three_ports : World :=
  world_of ∅ {[ DOTENV := Readable three_ports ]} all_succeed.

(** The operating system sets the key to the empty string; there is no
    configuration file. *)
Definition world_empty_key : World :=
  world_of {[ GOOGLE_API_KEY := [] ]} ∅ all_succeed.

(** The key is set by the operating system; there is no file. *)
Definition world_key_set : World :=
  world_of {[ GOOGLE_API_KEY := lit "secret" ]} ∅ all_succeed.

(** The configuration file is the template a previous run has written. *)
Definition world_template_written : World :=
  world_of ∅ {[ DOTENV := Readable env_template ]} all_succeed.

(** The configuration file names the key in a comment only. *)
Definition world_key_commented : World :=
  world_of ∅
    {[ DOTENV := Readable (lit "# GOOGLE_API_KEY=abc" ++ [10]) ]} all_succeed.

(** Neither a file nor a key. *)
Definition world_fresh : World := world_of ∅ ∅ all_succeed.

(** An operating system in which every process exits with status 1 and
    the given text on [stderr]. *)
Definition all_fail (stderr : str) : list (list str) -> list str -> proc_result :=
  fun _ _ => Exited 1 [] stderr.

Definition world_failing : World :=
  world_of ∅ ∅ (all_fail (lit "no such table")).

(** The first of two assignments to [PORT] has a NUL as its value. *)
Definition nul_port : str :=
  lit "PORT=" ++ [NUL] ++ [10] ++ lit "PORT=2" ++ [10].

Definition world_nul_port : World :=
  world_of ∅ {[ DOTENV := Readable nul_port ]} all_succeed.

(** Claim C1 as the specification words it: the value set for the key of a
    well-formed line is the trimmed text after the first separator with
    one layer of matching quotes removed. *)
Definition C1_as_stated : Prop :=
  forall (w : World) (kp vp : str),
    EQUALS ∉ kp ->
    strip kp <> [] ->
    startswith [HASH] (strip kp) = false ->
    char_in (kp ++ vp) NUL = false ->
    environ w !! strip kp = None ->
    environ (snd (load_line (kp ++ EQUALS :: vp) w)) !! strip kp
    = Some (spec_unquote (strip vp)).

(** Claim C10 as the specification words it: a key that is not in the
    environment and that several lines assign gets the value of the first
    of them, whatever the file holds. *)
Definition C10_as_stated : Prop :=
  forall (path text : str) (w : World) (l1 l2 : list str) (raw k v : str),
    files w !! path = Some (Readable text) ->
    splitlines text = l1 ++ raw :: l2 ->
    parse_line raw = Some (k, v) ->
    Forall (fun r => forall v', parse_line r <> Some (k, v')) l1 ->
    environ w !! k = None ->
    fst (_load_env_file path w) = Ret tt
    /\ environ (snd (_load_env_file path w)) !! k = Some v.

(** Claim C6 as the specification words it: the file exists and the key is
    absent from the environment, whatever the file holds. *)
Definition C6_as_stated : Prop :=
  forall (w : World),
    is_Some (files w !! DOTENV) ->
    environ w !! GOOGLE_API_KEY = None ->
    fst (check_environment_variables w) = Ret false
    /\ files (snd (check_environment_variables w)) = files w.

(** Claim C7 as the specification words it: the key is present in the
    environment the validator reads, set by the operating system or by the
    loader. *)
Definition C7_as_stated : Prop :=
  forall (w : World),
    is_Some (environ (loaded w) !! GOOGLE_API_KEY) ->
    fst (check_environment_variables w) = Ret true
    /\ files (snd (check_environment_variables w)) = files w.

(** ** Further sample states *)

(** A file of comments, blank lines and a line without separator. *)
Definition comments_only : str :=
  lit "# settings" ++ [10] ++ [10] ++ lit "   " ++ [10]
  ++ lit "  # PORT=1" ++ [10] ++ lit "plain words" ++ [10].

Definition world_comments_only : World :=
  world_of {[ lit "HOME" := lit "/root" ]}
    {[ DOTENV := Readable comments_only ]} all_succeed.

(** [HOST] is set by the operating system; the file assigns [HOST] and,
    twice, [PORT]. *)
Definition world_host_set : World :=
  world_of {[ lit "HOST" := lit "localhost" ]}
    {[ DOTENV := Readable three_ports ]} all_succeed.

(** The second line has a NUL in its value; a third line follows. *)
Definition nul_second : str :=
  lit "A=1" ++ [10] ++ lit "B=" ++ [NUL] ++ [10] ++ lit "C=3" ++ [10].

Definition world_nul_second : World :=
  world_of ∅ {[ DOTENV := Readable nul_second ]} all_succeed.

(** The exception [os.environ] raises for an embedded NUL. *)
Definition embedded_null : exn :=
  simple_exn ValueError (lit "embedded null byte").

(** The records of [setup_databases] between its two invocations. *)
Definition sqlite_done_record : level * list piece :=
  (INFO, [Text (CHECK_MARK ++ lit " SQLite database initialized")]).

Definition chromadb_record : level * list piece :=
  (INFO, [Text (lit "Setting up ChromaDB knowledge store...")]).

(** The first program succeeds, the second exits with status 2. *)
Definition second_fails : list (list str) -> list str -> proc_result :=
  fun history _ =>
    match history with
    | [] => Exited 0 (lit "created") []
    | _ => Exited 2 [] (lit "no collection")
    end.

Definition world_second_fails : World := world_of ∅ ∅ second_fails.

(** ** The version guard *)

(** [sys.version_info]: major, minor, micro, release level, serial. *)
Record version_info := mk_version_info {
  major : Z;
  minor : Z;
  micro : Z;
  releaselevel : str;
  serial : Z
}.

(** [a < b] for tuples of integers: the first position where they differ
    decides; if there is none, the shorter tuple is the smaller one. *)
Fixpoint tuple_lt (a b : list Z) : bool :=
  match a, b with
  | _, [] => false
  | [], _ :: _ => true
  | x :: a', y :: b' => if (x =? y)%Z then tuple_lt a' b' else (x <? y)%Z
  end.

(** [sys.version_info < t] for a tuple [t] of at most three integers: the
    comparison ends before it reaches the release level. *)
Definition version_info_lt (v : version_info) (t : list Z) : bool :=
  tuple_lt [major v; minor v; micro v] t.

(** [check_python_version], with [sys.version_info] and [sys.version] of
    the running interpreter as arguments. *)
Definition check_python_version (v : version_info) (version : str) : M bool :=
  if version_info_lt v [3; 8]%Z then
    logger_error [Text (CROSS_MARK ++ lit " Python 3.8 or higher is required")] ;;
    ret false
  else
    logger_info [Text (CHECK_MARK ++ lit " Python version: "); Text version] ;;
    ret true.

(** ** The directory provisioner *)

(** Directories live in a tree of their own, beside the files of the
    state above: a finite map from relative paths to the kind of the
    entry. A path is the list of its parts with the last part first, so
    that the parent of a path is its tail; the empty path is the working
    directory, which exists. Symbolic links and permissions are left
    out. *)
Inductive kind := Directory | RegularFile.

(** [Path(s)] for a relative [s] given by its parts: [./data/chromadb]
    has the parts [data] and [chromadb]. *)
Definition path_of (parts : list str) : list str := reverse parts.

(** The failures of [os.mkdir]: [FileExistsError], [FileNotFoundError]
    and [NotADirectoryError]. *)
Inductive mkdir_error := E_EXIST | E_NOENT | E_NOTDIR.

(** Path resolution: what a path leads to. *)
Inductive resolved :=
  | Found (k : kind)
  | NoEntry
  | NotADir.

Fixpoint resolve (p : list str) (t : gmap (list str) kind) : resolved :=
  match p with
  | [] => Found Directory
  | _ :: parent =>
      match resolve parent t with
      | Found Directory =>
          match t !! p with Some k => Found k | None => NoEntry end
      | Found RegularFile => NotADir
      | NoEntry => NoEntry
      | NotADir => NotADir
      end
  end.

(** [path.is_dir()] *)
Definition is_dir (p : list str) (t : gmap (list str) kind) : bool :=
  match resolve p t with Found Directory => true | _ => false end.

(** [os.mkdir(path)]: the parent must resolve to a directory and the path
    itself must not exist. *)
Definition os_mkdir (p : list str) (t : gmap (list str) kind)
  : option mkdir_error * gmap (list str) kind :=
  match p with
  | [] => (Some E_EXIST, t)
  | _ :: parent =>
      match resolve parent t with
      | Found Directory =>
          match t !! p with
          | Some _ => (Some E_EXIST, t)
          | None => (None, <[p := Directory]> t)
          end
      | Found RegularFile => (Some E_NOTDIR, t)
      | NoEntry => (Some E_NOENT, t)
      | NotADir => (Some E_NOTDIR, t)
      end
  end.

(** [path.mkdir(parents=False, exist_ok=exist_ok)]: a [FileNotFoundError]
    is raised again; any other [OSError] is raised again unless
    [exist_ok] holds and the path is a directory. *)
Definition mkdir_plain (p : list str) (exist_ok : bool)
    (t : gmap (list str) kind) : option mkdir_error * gmap (list str) kind :=
  match os_mkdir p t with
  | (None, t') => (None, t')
  | (Some E_NOENT, t') => (Some E_NOENT, t')
  | (Some e, t') => if exist_ok && is_dir p t' then (None, t') else (Some e, t')
  end.

(** [path.mkdir(parents=True, exist_ok=exist_ok)]: on a
    [FileNotFoundError] the parent is made first, with its own parents
    and with [exist_ok=True], and the directory is made again without
    [parents]. *)
Fixpoint mkdir_parents (p : list str) (exist_ok : bool)
    (t : gmap (list str) kind) : option mkdir_error * gmap (list str) kind :=
  match os_mkdir p t with
  | (None, t') => (None, t')
  | (Some E_NOENT, t') =>
      match p with
      | [] => (Some E_NOENT, t')
      | _ :: parent =>
          match mkdir_parents parent true t' with
          | (None, t1) => mkdir_plain p exist_ok t1
          | (Some e, t1) => (Some e, t1)
          end
      end
  | (Some e, t') => if exist_ok && is_dir p t' then (None, t') else (Some e, t')
  end.

(** The list [directories] of [setup_directories]. *)
Definition directories : list (list str) :=
  [ path_of [lit "data"];
    path_of [lit "data"; lit "chromadb"];
    path_of [lit "data"; lit "security"];
    path_of [lit "logs"];
    path_of [lit "frontend"; lit "public"];
    path_of [lit "frontend"; lit "src"] ].

(** The loop of [setup_directories]; an exception ends it. *)
Fixpoint make_directories (ds : list (list str)) (t : gmap (list str) kind)
  : option mkdir_error * gmap (list str) kind :=
  match ds with
  | [] => (None, t)
  | d :: ds' =>
      match mkdir_parents d true t with
      | (None, t1) => make_directories ds' t1
      | (Some e, t1) => (Some e, t1)
      end
  end.

Definition directories_record : level * list piece :=
  (INFO, [Text (lit "Setting up directories...")]).

Definition directories_done_record : level * list piece :=
  (INFO, [Text (CHECK_MARK ++ lit " Directories created")]).

(** [setup_directories]: the exception that leaves the function, if any,
    the tree and the state afterwards. *)
Definition setup_directories (t : gmap (list str) kind) (w : World)
  : option mkdir_error * gmap (list str) kind * World :=
  let w1 := snd (logger_info [Text (lit "Setting up directories...")] w) in
  match make_directories directories t with
  | (None, t') =>
      (None, t',
       snd (logger_info [Text (CHECK_MARK ++ lit " Directories created")] w1))
  | (Some e, t') => (Some e, t', w1)
  end.

(** A path and the paths above it, the working directory aside. *)
Fixpoint self_and_ancestors (p : list str) : list (list str) :=
  match p with
  | [] => []
  | _ :: parent => p :: self_and_ancestors parent
  end.

(** The paths [setup_directories] needs to be directories. *)
Definition needed : list (list str) :=
  concat (List.map self_and_ancestors directories).

(** The tree in which the given paths are directories, and the rest is
    as in [t]. *)
Definition with_dirs (qs : list (list str)) (t : gmap (list str) kind)
  : gmap (list str) kind :=
  foldr (fun q acc => <[q := Directory]> acc) t qs.

(** A tree in which [data] is a regular file. *)
Definition tree_data_is_file : gmap (list str) kind :=
  {[ path_of [lit "data"] := RegularFile ]}.

(** A tree with [logs] and a file [data/notes]; [data] is a directory. *)
Definition tree_partial : gmap (list str) kind :=
  {[ path_of [lit "logs"] := Directory;
     path_of [lit "data"] := Directory;
     path_of [lit "data"; lit "notes"] := RegularFile ]}.

(** The manifest [install_dependencies] hands to the package manager. *)
Definition MANIFEST : str := lit "backend/requirements.txt".

(** What the package manager writes to [stderr], before it exits with
    status 1, when the manifest does not exist. *)
Definition missing_manifest_stderr : str :=
  lit "ERROR: Could not open requirements file: [Errno 2] No such file or directory: 'backend/requirements.txt'".

(** The interpreter is there and runs the package manager; the working
    directory has no [backend/requirements.txt]. *)
Definition pip_without_manifest : list (list str) -> list str -> proc_result :=
  fun _ _ => Exited 1 [] missing_manifest_stderr.

Definition world_no_manifest : World := world_of ∅ ∅ pip_without_manifest.

(** ** Properties of the string operations *)

Lemma lit_hash : lit "#" = [HASH].
Proof. reflexivity. Qed.

Lemma lit_equals : lit "=" = [EQUALS].
Proof. reflexivity. Qed.

Lemma char_in_true (s : str) (c : N) : char_in s c = true <-> c ∈ s.
Proof.
  unfold char_in. rewrite existsb_exists. split.
  - intros (x & Hx & Heq). apply N.eqb_eq in Heq. subst x.
    by apply list_elem_of_In.
  - intros Hc. exists c. split; [by apply list_elem_of_In | apply N.eqb_refl].
Qed.

Lemma char_in_false (s : str) (c : N) : char_in s c = false <-> c ∉ s.
Proof.
  rewrite <- char_in_true. destruct (char_in s c); split; intros H; done.
Qed.

Lemma lstrip_by_subseteq p (s : str) : lstrip_by p s ⊆ s.
Proof.
  induction s as [|c s IH]; simpl; [done|].
  destruct (p c); [|done]. by apply list_subseteq_cons.
Qed.

Lemma rstrip_by_subseteq p (s : str) : rstrip_by p s ⊆ s.
Proof.
  induction s as [|c s IH]; simpl; [done|].
  destruct (rstrip_by p s) as [|d r] eqn:E.
  - destruct (p c); [apply list_subseteq_nil|].
    intros x Hx. apply list_elem_of_singleton in Hx. subst. left.
  - intros x Hx. apply elem_of_cons in Hx as [->|Hx]; [left|].
    right. by apply IH.
Qed.

Lemma strip_by_subseteq p (s : str) : strip_by p s ⊆ s.
Proof.
  unfold strip_by. etrans; [apply rstrip_by_subseteq|apply lstrip_by_subseteq].
Qed.

(** [lstrip] stops at the first character outside the set. *)
Lemma lstrip_by_head p (s : str) :
  lstrip_by p s = [] \/ exists x t, lstrip_by p s = x :: t /\ p x = false.
Proof.
  induction s as [|c s IH]; simpl; [by left|].
  destruct (p c) eqn:E; [done|]. right. by exists c, s.
Qed.

Lemma lstrip_by_app_stop p (a b : str) (c : N) :
  p c = false -> lstrip_by p (a ++ c :: b) = lstrip_by p a ++ c :: b.
Proof.
  intros Hc. induction a as [|x a IH]; simpl; [by rewrite Hc|].
  by destruct (p x).
Qed.

Lemma rstrip_by_app_stop p (a b : str) (c : N) :
  p c = false -> rstrip_by p (a ++ c :: b) = a ++ c :: rstrip_by p b.
Proof.
  intros Hc. induction a as [|x a IH]; simpl.
  - destruct (rstrip_by p b); [by rewrite Hc|done].
  - rewrite IH. by destruct a.
Qed.

Lemma rstrip_by_keeps_head p (x : N) (t : str) :
  p x = false -> exists t', rstrip_by p (x :: t) = x :: t'.
Proof.
  intros Hx. simpl. destruct (rstrip_by p t) as [|d r].
  - rewrite Hx. by exists [].
  - by exists (d :: r).
Qed.

Lemma lstrip_by_idemp p (s : str) :
  lstrip_by p (lstrip_by p s) = lstrip_by p s.
Proof.
  destruct (lstrip_by_head p s) as [->|(x & t & -> & Hx)]; [done|].
  simpl. by rewrite Hx.
Qed.

Lemma lstrip_rstrip_comm p (s : str) :
  lstrip_by p (rstrip_by p s) = rstrip_by p (lstrip_by p s).
Proof.
  induction s as [|c s IH]; [done|].
  cbn [lstrip_by]. destruct (p c) eqn:Hc.
  - rewrite <- IH. simpl. destruct (rstrip_by p s) as [|d r]; simpl.
    + by rewrite Hc.
    + by rewrite Hc.
  - destruct (rstrip_by_keeps_head p c s Hc) as [t' ->]. simpl. by rewrite Hc.
Qed.

Lemma rstrip_by_idemp p (s : str) :
  rstrip_by p (rstrip_by p s) = rstrip_by p s.
Proof.
  induction s as [|c s IH]; [done|].
  simpl. destruct (rstrip_by p s) as [|d r] eqn:E.
  - destruct (p c) eqn:Hc; [done|]. simpl. by rewrite Hc.
  - change (rstrip_by p (c :: d :: r)) with
      (match rstrip_by p (d :: r) with
       | [] => if p c then [] else [c]
       | r' => c :: r'
       end).
    by rewrite IH.
Qed.

Lemma strip_by_lstrip p (s : str) :
  strip_by p (lstrip_by p s) = strip_by p s.
Proof. unfold strip_by. by rewrite lstrip_by_idemp. Qed.

Lemma strip_by_rstrip p (s : str) :
  strip_by p (rstrip_by p s) = strip_by p s.
Proof.
  unfold strip_by. by rewrite lstrip_rstrip_comm, rstrip_by_idemp.
Qed.

(** A key that is empty after trimming consists of characters of the set. *)
Lemma strip_by_nil_lstrip p (s : str) :
  strip_by p s = [] -> lstrip_by p s = [].
Proof.
  unfold strip_by. intros H.
  destruct (lstrip_by_head p s) as [E|(x & t & E & Hx)]; [done|].
  rewrite E in H. destruct (rstrip_by_keeps_head p x t Hx) as [t' Ht].
  congruence.
Qed.

Lemma strip_by_head p (s : str) (x : N) (t : str) :
  lstrip_by p s = x :: t -> exists t', strip_by p s = x :: t' /\ p x = false.
Proof.
  intros E. destruct (lstrip_by_head p s) as [E'|(y & u & E' & Hy)];
    [congruence|].
  rewrite E in E'. injection E' as -> ->.
  unfold strip_by. rewrite E.
  destruct (rstrip_by_keeps_head p y u Hy) as [t' ->]. by exists t'.
Qed.

Lemma find_split_char (c : N) (a b : str) :
  c ∉ a -> find_split [c] (a ++ c :: b) = Some (a, b).
Proof.
  induction a as [|x a IH]; intros Hc.
  - simpl. by rewrite N.eqb_refl.
  - apply not_elem_of_cons in Hc as [Hx Ha].
    change (find_split [c] ((x :: a) ++ c :: b)) with
      (if (c =? x) && true then Some ([], drop 1 (x :: a ++ c :: b))
       else match find_split [c] (a ++ c :: b) with
            | Some (a', b') => Some (x :: a', b')
            | None => None
            end).
    apply N.eqb_neq in Hx. rewrite Hx. simpl. by rewrite IH.
Qed.

Lemma find_split_char_inv (c : N) (s a b : str) :
  find_split [c] s = Some (a, b) -> s = a ++ c :: b /\ c ∉ a.
Proof.
  revert a b. induction s as [|x s IH]; intros a b; [done|].
  change (find_split [c] (x :: s)) with
    (if (c =? x) && true then Some ([], drop 1 (x :: s))
     else match find_split [c] s with
          | Some (a', b') => Some (x :: a', b')
          | None => None
          end).
  destruct (N.eqb_spec c x) as [->|Hne]; simpl.
  - intros [= <- <-]. split; [done|]. apply not_elem_of_nil.
  - destruct (find_split [c] s) as [[a' b']|]; [|done].
    intros [= <- <-]. destruct (IH a' b' eq_refl) as [-> Hc].
    split; [done|]. by apply not_elem_of_cons.
Qed.

Lemma splitlines_subseteq_bounded (n : nat) :
  forall s : str, (length s <= n)%nat -> Forall (fun l : str => l ⊆ s) (splitlines s).
Proof.
  induction n as [|n IH]; intros s Hn.
  - destruct s; [constructor | simpl in Hn; lia].
  - destruct s as [|c s]; [constructor|].
    simpl in Hn. assert (Hs : (length s <= n)%nat) by lia.
    pose proof (IH s Hs) as IHs.
    assert (Hmono : Forall (fun l : str => l ⊆ c :: s) (splitlines s)).
    { eapply Forall_impl; [exact IHs|]. intros l Hl.
      by apply list_subseteq_cons. }
    cbn [splitlines]. destruct (islinebreak c).
    + constructor; [apply list_subseteq_nil|].
      destruct s as [|d s'']; [constructor|].
      destruct ((c =? 13) && (d =? 10)); [|exact Hmono].
      simpl in Hs. assert (Hs'' : (length s'' <= n)%nat) by lia.
      eapply Forall_impl; [exact (IH s'' Hs'')|]. intros l Hl.
      do 2 apply list_subseteq_cons. exact Hl.
    + destruct (splitlines s) as [|l ls] eqn:E.
      * constructor; [|constructor]. intros x Hx.
        apply list_elem_of_singleton in Hx. subst. left.
      * inversion Hmono as [|? ? Hl Hls]; subst. constructor; [|done].
        intros x Hx. apply elem_of_cons in Hx as [->|Hx]; [left|].
        by apply Hl.
Qed.

Lemma splitlines_subseteq (s l : str) : l ∈ splitlines s -> l ⊆ s.
Proof.
  intros Hl.
  pose proof (splitlines_subseteq_bounded (length s) s (le_n _)) as H.
  rewrite Forall_forall in H. by apply H.
Qed.

(** The string operations on sample inputs. *)

Example splitlines_sample :
  splitlines (lit "a" ++ [13; 10] ++ lit "b" ++ [10; 10] ++ lit "c" ++ [13])
  = [lit "a"; lit "b"; []; lit "c"].
Proof. reflexivity. Qed.

Example splitlines_empty : splitlines [] = [] /\ splitlines [10] = [[]].
Proof. split; reflexivity. Qed.

Example strip_sample : strip ([32; 9] ++ lit "a b" ++ [32; 10]) = lit "a b".
Proof. reflexivity. Qed.

Example strip_chars_sample :
  strip_chars [DQUOTE] ([DQUOTE; DQUOTE] ++ lit "x y" ++ [DQUOTE])
  = lit "x y".
Proof. reflexivity. Qed.

Example split1_sample :
  split1 (lit "=") (lit "a=b=c") = [lit "a"; lit "b=c"]
  /\ split1 (lit "=") (lit "abc") = [lit "abc"].
Proof. split; reflexivity. Qed.

Example parse_line_sample :
  parse_line (lit "  NAME = 'x y'  ") = Some (lit "NAME", lit "x y")
  /\ parse_line (lit "#NAME=1") = None
  /\ parse_line (lit "NAME") = None
  /\ parse_line (lit "NAME=") = Some (lit "NAME", []).
Proof. repeat split; reflexivity. Qed.

(** ** Properties of one loop iteration *)

Lemma parse_line_inv (raw k v : str) :
  parse_line raw = Some (k, v) ->
  k <> [] /\ (EQUALS ∉ k) /\ (k ⊆ raw) /\ (v ⊆ raw).
Proof.
  unfold parse_line.
  destruct (negb (truthy (strip raw)) || startswith (lit "#") (strip raw)
            || negb (str_in (lit "=") (strip raw))); [done|].
  destruct (find_split (lit "=") (strip raw)) as [[a b]|] eqn:E; [|done].
  destruct (truthy (strip a)) eqn:Ht; [|done]. intros [= <- <-].
  rewrite lit_equals in E. apply find_split_char_inv in E as [E Ha].
  assert (Hs : strip raw ⊆ raw) by apply strip_by_subseteq.
  assert (Hka : strip a ⊆ a) by apply strip_by_subseteq.
  repeat split.
  - intros Hk. by rewrite Hk in Ht.
  - intros Hk. by apply Ha, Hka.
  - etrans; [exact Hka|]. etrans; [|exact Hs]. rewrite E.
    by apply list_subseteq_app_l.
  - unfold unquote, strip_chars, strip.
    etrans; [apply strip_by_subseteq|]. etrans; [apply strip_by_subseteq|].
    etrans; [apply strip_by_subseteq|]. etrans; [|exact Hs]. rewrite E.
    apply list_subseteq_app_r. by apply list_subseteq_cons.
Qed.

(** One iteration either skips the line, or assigns the parsed value to a
    key that is not in the environment. The unpacking of the split never
    fails. *)
Lemma load_line_spec (raw : str) (w : World) :
  load_line raw w =
  match parse_line raw with
  | None => (Ret tt, w)
  | Some (k, v) =>
      match environ w !! k with
      | Some _ => (Ret tt, w)
      | None => environ_setitem k v w
      end
  end.
Proof.
  unfold load_line, parse_line.
  destruct (negb (truthy (strip raw)) || startswith (lit "#") (strip raw)
            || negb (str_in (lit "=") (strip raw))) eqn:F; [done|].
  unfold split1.
  destruct (find_split (lit "=") (strip raw)) as [[a b]|] eqn:E.
  - unfold bind, unpack2, ret, unquote. simpl.
    destruct (truthy (strip a)); [|done].
    unfold environ_contains. by destruct (environ w !! strip a).
  - unfold str_in in F. rewrite E in F. simpl in F.
    by rewrite orb_true_r in F.
Qed.

Lemma environ_setitem_ok (k v : str) (w : World) :
  NUL ∉ k -> NUL ∉ v -> k <> [] -> EQUALS ∉ k ->
  environ_setitem k v w = (Ret tt, with_environ (<[k := v]> (environ w)) w).
Proof.
  intros Hk Hv Hne He. unfold environ_setitem.
  apply char_in_false in Hk, Hv, He. rewrite Hk, Hv, He.
  by destruct k.
Qed.

(** A failing assignment leaves the state as it was. *)
Lemma environ_setitem_cases (k v : str) (w : World) :
  environ_setitem k v w = (Ret tt, with_environ (<[k := v]> (environ w)) w)
  \/ exists e, environ_setitem k v w = (Raise e, w)
               /\ exn_cls e = ValueError.
Proof.
  unfold environ_setitem.
  destruct (char_in k NUL || char_in v NUL); [right; by eexists|].
  destruct (negb (truthy k) || char_in k EQUALS); [right; by eexists|].
  by left.
Qed.

Lemma extends_refl (w : World) : extends w w.
Proof. by repeat split. Qed.

Lemma extends_trans (w1 w2 w3 : World) :
  extends w1 w2 -> extends w2 w3 -> extends w1 w3.
Proof.
  intros (H1 & H2 & H3 & H4 & H5 & H6) (G1 & G2 & G3 & G4 & G5 & G6).
  repeat split; try congruence. by etrans.
Qed.

Lemma load_line_extends (raw : str) (w : World) :
  extends w (snd (load_line raw w)).
Proof.
  rewrite load_line_spec.
  destruct (parse_line raw) as [[k v]|]; [|apply extends_refl].
  destruct (environ w !! k) eqn:Hk; [apply extends_refl|].
  destruct (environ_setitem_cases k v w) as [->|(e & -> & _)];
    [|apply extends_refl].
  repeat split; simpl. by apply insert_subseteq.
Qed.

Lemma for_each_load_extends (ls : list str) (w : World) :
  extends w (snd (for_each ls load_line w)).
Proof.
  revert w. induction ls as [|raw ls IH]; intros w; [apply extends_refl|].
  simpl. unfold bind.
  pose proof (load_line_extends raw w) as H.
  destruct (load_line raw w) as [[[]|e] w1]; simpl in *; [|done].
  eapply extends_trans; [exact H|apply IH].
Qed.

(** ** The environment loader as a whole *)

(** Every exception of the model is an instance of [Exception]. *)
Lemma isinstance_Exception (e : exn) : isinstance e Exception = true.
Proof. unfold isinstance. by destruct (exn_cls e). Qed.

Lemma load_env_body_eq (path : str) (w : World) :
  load_env_body path w =
  match files w !! path with
  | None => (Raise (simple_exn FileNotFoundError path), w)
  | Some (Unreadable e) => (Raise e, w)
  | Some (Readable text) => for_each (splitlines text) load_line w
  end.
Proof.
  unfold load_env_body, bind, read_text.
  by destruct (files w !! path) as [[text|e]|].
Qed.

Lemma load_env_file_eq (path : str) (w : World) :
  _load_env_file path w =
  match files w !! path with
  | None => (Ret tt, w)
  | Some _ =>
      match load_env_body path w with
      | (Ret _, w1) => (Ret tt, w1)
      | (Raise e, w1) => (Ret tt, with_log (parse_warning e) w1)
      end
  end.
Proof.
  unfold _load_env_file, bind, path_exists.
  destruct (files w !! path) as [n|]; [|done]. simpl.
  unfold try_except.
  destruct (load_env_body path w) as [[[]|e] w1]; [done|].
  simpl. by rewrite isinstance_Exception.
Qed.

Lemma load_env_file_returns (path : str) (w : World) :
  fst (_load_env_file path w) = Ret tt.
Proof.
  rewrite load_env_file_eq. destruct (files w !! path); [|done].
  by destruct (load_env_body path w) as [[[]|e] w1].
Qed.

(** The loader changes the environment by additions and the log by at most
    one warning; files and processes are not touched. *)
Lemma load_env_file_frame (path : str) (w : World) :
  let w' := snd (_load_env_file path w) in
  environ w ⊆ environ w'
  /\ files w' = files w
  /\ spawned w' = spawned w
  /\ sys_executable w' = sys_executable w
  /\ os_exec w' = os_exec w.
Proof.
  simpl. rewrite load_env_file_eq, load_env_body_eq.
  destruct (files w !! path) as [[text|e]|]; simpl; [|done..].
  pose proof (for_each_load_extends (splitlines text) w) as H.
  destruct (for_each (splitlines text) load_line w) as [[[]|e] w1];
    simpl in *; destruct H as (H1 & H2 & H3 & H4 & H5 & H6); done.
Qed.

(** C4. A key that is in the environment before [_load_env_file] runs keeps
    its value, whatever the configuration file holds: the environment after
    the call contains the environment before it. *)
Theorem C4_loader_never_overwrites (path : str) (w : World) :
  environ w ⊆ environ (snd (_load_env_file path w))
  /\ forall k v : str,
       environ w !! k = Some v ->
       environ (snd (_load_env_file path w)) !! k = Some v.
Proof.
  destruct (load_env_file_frame path w) as (Hsub & _).
  split; [exact Hsub|]. intros k v Hk.
  eapply lookup_weaken; [exact Hk|exact Hsub].
Qed.

Lemma C4_witness :
  environ (snd (_load_env_file DOTENV world_foo_set)) !! lit "FOO"
  = Some (lit "old").
Proof.
  apply (proj2 (C4_loader_never_overwrites DOTENV world_foo_set)).
  vm_compute. reflexivity.
Defined.

(** C8. [_load_env_file] always returns normally: an exception raised while
    the file is read and its lines are processed (an I/O error, a decoding
    error, a refused environment assignment) is caught by the
    [except Exception] clause, which logs one warning naming the exception
    and keeps the state reached when it was raised. *)
Theorem C8_loader_swallows_failures (path : str) (w : World) :
  fst (_load_env_file path w) = Ret tt
  /\ forall (e : exn) (w1 : World),
       fst (path_exists path w) = Ret true ->
       load_env_body path w = (Raise e, w1) ->
       snd (_load_env_file path w) = with_log (parse_warning e) w1.
Proof.
  split; [apply load_env_file_returns|].
  intros e w1 Hex Hbody. rewrite load_env_file_eq, Hbody.
  unfold path_exists in Hex. simpl in Hex.
  by destruct (files w !! path).
Qed.

Lemma C8_witness :
  snd (_load_env_file DOTENV world_undecodable)
  = with_log (parse_warning undecodable) world_undecodable.
Proof.
  apply (proj2 (C8_loader_swallows_failures DOTENV world_undecodable)).
  - vm_compute. reflexivity.
  - vm_compute. reflexivity.
Defined.

Lemma for_each_skip {X} (f : X -> M unit) (x : X) (l1 l2 : list X) :
  (forall w, f x w = (Ret tt, w)) ->
  forall w, for_each (l1 ++ x :: l2) f w = for_each (l1 ++ l2) f w.
Proof.
  intros Hx. induction l1 as [|y l1 IH]; intros w; simpl.
  - unfold bind. by rewrite Hx.
  - unfold bind. destruct (f y w) as [[[]|e] w1]; [apply IH|done].
Qed.

Lemma strip_key_line (kp vp : str) :
  strip (kp ++ EQUALS :: vp)
  = lstrip_by isspace kp ++ EQUALS :: rstrip_by isspace vp.
Proof.
  unfold strip, strip_by.
  rewrite lstrip_by_app_stop by reflexivity.
  by rewrite rstrip_by_app_stop by reflexivity.
Qed.

Lemma parse_line_empty_key (kp vp : str) :
  strip kp = [] -> parse_line (kp ++ EQUALS :: vp) = None.
Proof.
  intros Hk. unfold parse_line. rewrite strip_key_line.
  apply strip_by_nil_lstrip in Hk. rewrite Hk. simpl app.
  rewrite lit_equals, lit_hash.
  assert (H : find_split [EQUALS] (EQUALS :: rstrip_by isspace vp)
              = Some ([], rstrip_by isspace vp)).
  { apply (find_split_char EQUALS [] _), not_elem_of_nil. }
  unfold str_in. rewrite H. reflexivity.
Qed.

(** C9. A line whose key is empty after trimming (only white space before
    the first separator) is skipped: the iteration returns normally with
    the state unchanged (no assignment, no log record), and the loop over
    a file behaves as if the line were not there. *)
Theorem C9_empty_key_skipped (kp vp : str) :
  strip kp = [] ->
  (forall w, load_line (kp ++ EQUALS :: vp) w = (Ret tt, w))
  /\ (forall (l1 l2 : list str) (w : World),
        for_each (l1 ++ (kp ++ EQUALS :: vp) :: l2) load_line w
        = for_each (l1 ++ l2) load_line w).
Proof.
  intros Hk.
  assert (H : forall w, load_line (kp ++ EQUALS :: vp) w = (Ret tt, w)).
  { intros w. by rewrite load_line_spec, parse_line_empty_key. }
  split; [exact H|]. intros l1 l2 w. by apply for_each_skip.
Qed.

Lemma C9_witness :
  load_line (lit "  " ++ EQUALS :: lit "value") world_foo_set
  = (Ret tt, world_foo_set).
Proof.
  apply (proj1 (C9_empty_key_skipped (lit "  ") (lit "value") eq_refl)).
Defined.

Lemma parse_line_kv (kp vp : str) :
  EQUALS ∉ kp ->
  strip kp <> [] ->
  startswith [HASH] (strip kp) = false ->
  parse_line (kp ++ EQUALS :: vp) = Some (strip kp, unquote vp).
Proof.
  intros Heq Hne Hhash. unfold parse_line. rewrite strip_key_line.
  destruct (lstrip_by_head isspace kp) as [E|(x & t & E & Hx)].
  { exfalso. apply Hne. unfold strip, strip_by. by rewrite E. }
  destruct (strip_by_head isspace kp x t E) as (t' & Hk & _).
  assert (Hfind : find_split (lit "=")
                    (lstrip_by isspace kp ++ EQUALS :: rstrip_by isspace vp)
                  = Some (lstrip_by isspace kp, rstrip_by isspace vp)).
  { rewrite lit_equals. apply find_split_char. intros Hin.
    by apply Heq, (lstrip_by_subseteq isspace kp). }
  unfold str_in. rewrite Hfind.
  assert (Hstart : startswith (lit "#")
                     (lstrip_by isspace kp ++ EQUALS :: rstrip_by isspace vp)
                   = false).
  { rewrite E, lit_hash. change (strip kp = x :: t') in Hk.
    rewrite Hk in Hhash.
    simpl in *. by destruct (HASH =? x). }
  rewrite Hstart, E. simpl negb. simpl orb. cbv iota. rewrite <- E.
  fold (strip (lstrip_by isspace kp)). unfold strip at 1 2.
  rewrite strip_by_lstrip. fold (strip kp).
  assert (Ht : truthy (strip kp) = true) by (by destruct (strip kp)).
  rewrite Ht. unfold unquote, strip. by rewrite strip_by_rstrip.
Qed.

Lemma for_each_app {X} (f : X -> M unit) (l1 l2 : list X) (w : World) :
  for_each (l1 ++ l2) f w =
  match for_each l1 f w with
  | (Ret _, w1) => for_each l2 f w1
  | (Raise e, w1) => (Raise e, w1)
  end.
Proof.
  revert w. induction l1 as [|x l1 IH]; intros w; [done|].
  simpl. unfold bind. destruct (f x w) as [[[]|e] w1]; [apply IH|done].
Qed.

(** On a line without NUL the iteration returns normally. *)
Lemma load_line_nul_free (raw : str) (w : World) :
  NUL ∉ raw ->
  load_line raw w =
  (Ret tt,
   match parse_line raw with
   | Some (k, v) =>
       match environ w !! k with
       | Some _ => w
       | None => with_environ (<[k := v]> (environ w)) w
       end
   | None => w
   end).
Proof.
  intros Hnul. rewrite load_line_spec.
  destruct (parse_line raw) as [[k v]|] eqn:Hp; [|done].
  destruct (environ w !! k); [done|].
  apply parse_line_inv in Hp as (Hne & Heq & Hk & Hv).
  apply environ_setitem_ok; try done.
  - intros Hin. by apply Hnul, Hk.
  - intros Hin. by apply Hnul, Hv.
Qed.

(** Lines without NUL are processed to the end; a key that none of them
    assigns keeps its binding, or stays absent. *)
Lemma for_each_load_nul_free (ls : list str) (w : World) :
  Forall (fun r : str => NUL ∉ r) ls ->
  exists w',
    for_each ls load_line w = (Ret tt, w')
    /\ extends w w'
    /\ forall k : str,
         Forall (fun r => forall v', parse_line r <> Some (k, v')) ls ->
         environ w' !! k = environ w !! k.
Proof.
  revert w. induction ls as [|raw ls IH]; intros w Hnul.
  { exists w. split; [done|]. split; [apply extends_refl|done]. }
  inversion Hnul as [|? ? Hraw Hls]; subst.
  simpl. unfold bind.
  pose proof (load_line_extends raw w) as Hext.
  rewrite (load_line_nul_free raw w Hraw) in *. simpl in Hext.
  set (w1 := match parse_line raw with
             | Some (k, v) =>
                 match environ w !! k with
                 | Some _ => w
                 | None => with_environ (<[k := v]> (environ w)) w
                 end
             | None => w
             end) in *.
  destruct (IH w1 Hls) as (w' & Hrun & Hext' & Hkeep).
  exists w'. split; [exact Hrun|]. split; [by eapply extends_trans|].
  intros k Hk. inversion Hk as [|? ? Hk0 Hkls]; subst.
  rewrite (Hkeep k Hkls). unfold w1.
  destruct (parse_line raw) as [[k0 v0]|]; [|done].
  destruct (environ w !! k0); [done|]. simpl.
  apply lookup_insert_ne. intros ->. by apply (Hk0 v0).
Qed.

Lemma not_in_app_nul (a b : str) :
  char_in (a ++ b) NUL = false -> (NUL ∉ a) /\ (NUL ∉ b).
Proof.
  intros H. apply char_in_false in H.
  split; intros Hin; apply H, elem_of_app; [by left|by right].
Qed.

Lemma load_line_assigns (w : World) (kp vp : str) :
  EQUALS ∉ kp ->
  strip kp <> [] ->
  startswith [HASH] (strip kp) = false ->
  char_in (kp ++ vp) NUL = false ->
  environ w !! strip kp = None ->
  load_line (kp ++ EQUALS :: vp) w
  = (Ret tt, with_environ (<[strip kp := unquote vp]> (environ w)) w).
Proof.
  intros Heq Hne Hhash Hnul Hfree.
  apply not_in_app_nul in Hnul as [Hk Hv].
  rewrite load_line_spec, (parse_line_kv kp vp Heq Hne Hhash), Hfree.
  apply environ_setitem_ok; try done.
  - intros Hin. by apply Hk, (strip_by_subseteq isspace kp).
  - intros Hin. apply Hv. unfold unquote, strip_chars, strip in Hin.
    by do 3 apply strip_by_subseteq in Hin.
  - intros Hin. by apply Heq, (strip_by_subseteq isspace kp).
Qed.

Lemma rstrip_by_snoc p (s : str) (c : N) :
  rstrip_by p (s ++ [c]) = if p c then rstrip_by p s else s ++ [c].
Proof.
  induction s as [|x s IH]; simpl; [by destruct (p c)|].
  rewrite IH. destruct (p c); [done|]. by destruct s.
Qed.

Lemma lstrip_by_id p (c : N) (s : str) :
  p c = false -> lstrip_by p (c :: s) = c :: s.
Proof. intros H. simpl. by rewrite H. Qed.

(** Stripping removes nothing from a text whose two ends are outside the
    character set. *)
Lemma strip_by_id p (s : str) :
  match s with
  | [] => True
  | c :: _ =>
      p c = false
      /\ match reverse s with d :: _ => p d = false | [] => True end
  end ->
  strip_by p s = s.
Proof.
  destruct s as [|c s]; [done|]. intros [Hc Hd].
  unfold strip_by. rewrite lstrip_by_id by done.
  destruct (reverse (c :: s)) as [|d t] eqn:E.
  { apply (f_equal reverse) in E. rewrite reverse_involutive in E. done. }
  apply (f_equal reverse) in E. rewrite reverse_involutive in E.
  rewrite reverse_cons in E. rewrite E, rstrip_by_snoc. by rewrite Hd.
Qed.

Lemma strip_by_layer p (q : N) (mid : str) :
  p q = true -> strip_by p (q :: mid ++ [q]) = strip_by p mid.
Proof.
  intros Hq. unfold strip_by. rewrite <- !lstrip_rstrip_comm.
  change (q :: mid ++ [q]) with ((q :: mid) ++ [q]).
  rewrite rstrip_by_snoc, Hq, lstrip_rstrip_comm. simpl lstrip_by.
  by rewrite Hq, lstrip_rstrip_comm.
Qed.

Lemma no_edge_quote_strip (chars : str) (s : str) :
  (forall c, char_in chars c = true -> isquote c = true) ->
  no_edge_quote s = true -> strip_chars chars s = s.
Proof.
  intros Hchars Hs. apply strip_by_id. destruct s as [|c s]; [done|].
  unfold no_edge_quote in Hs. apply andb_true_iff in Hs as [Hc Hd].
  split.
  - destruct (char_in chars c) eqn:E; [|done].
    apply Hchars in E. by rewrite E in Hc.
  - destruct (reverse (c :: s)) as [|d t]; [done|].
    destruct (char_in chars d) eqn:E; [|done].
    apply Hchars in E. by rewrite E in Hd.
Qed.

(** Where the specification's wording and the loader agree: on a trimmed
    value that has no quote character at either end once one layer of
    matching quotes is removed. *)
Lemma unquote_one_layer (v : str) :
  no_edge_quote (spec_unquote v) = true ->
  strip_chars [SQUOTE] (strip_chars [DQUOTE] v) = spec_unquote v.
Proof.
  assert (Hdq : forall c, char_in [DQUOTE] c = true -> isquote c = true).
  { intros c Hc. apply char_in_true, list_elem_of_singleton in Hc. by subst. }
  assert (Hsq : forall c, char_in [SQUOTE] c = true -> isquote c = true).
  { intros c Hc. apply char_in_true, list_elem_of_singleton in Hc. by subst. }
  assert (Hplain : forall s, no_edge_quote s = true ->
            strip_chars [SQUOTE] (strip_chars [DQUOTE] s) = s).
  { intros s Hs. rewrite (no_edge_quote_strip [DQUOTE] s Hdq Hs).
    by apply no_edge_quote_strip. }
  destruct v as [|q rest]; [done|]. unfold spec_unquote.
  destruct ((q =? DQUOTE) || (q =? SQUOTE)) eqn:Hq; [|apply Hplain].
  destruct (reverse rest) as [|q' mid] eqn:E.
  { intros H. unfold no_edge_quote, isquote in H. by rewrite Hq in H. }
  destruct (N.eqb_spec q' q) as [->|Hne].
  - intros Hmid.
    apply (f_equal reverse) in E. rewrite reverse_involutive in E.
    rewrite reverse_cons in E. subst rest.
    apply orb_true_iff in Hq as [Hq|Hq]; apply N.eqb_eq in Hq; subst q.
    + unfold strip_chars at 2. rewrite strip_by_layer by reflexivity.
      apply Hplain, Hmid.
    + unfold strip_chars at 2. rewrite strip_by_id.
      * unfold strip_chars. rewrite strip_by_layer by reflexivity.
        by apply (no_edge_quote_strip [SQUOTE]).
      * split; [reflexivity|].
        change (SQUOTE :: reverse mid ++ [SQUOTE])
          with ((SQUOTE :: reverse mid) ++ [SQUOTE]).
        rewrite reverse_app. reflexivity.
  - intros H. unfold no_edge_quote, isquote in H. by rewrite Hq in H.
Qed.

(** C1 (amended). For a line [kp=vp], split at its first separator, whose
    key is not empty after trimming, is not commented out and is not yet in
    the environment, the loader sets the trimmed key to the trimmed value
    from which it has removed every leading and trailing double quote and
    then every leading and trailing single quote, whether they match or
    not; this is the removal of one layer of matching quotes whenever
    that removal leaves no quote character at either end of the value.
    A file with the line [FOO="bar"] gives [FOO] the value [bar]. *)
Theorem C1_loader_sets_unquoted_value :
  (forall (w : World) (kp vp : str),
     EQUALS ∉ kp ->
     strip kp <> [] ->
     startswith [HASH] (strip kp) = false ->
     char_in (kp ++ vp) NUL = false ->
     environ w !! strip kp = None ->
     load_line (kp ++ EQUALS :: vp) w
     = (Ret tt,
        with_environ
          (<[strip kp :=
               strip_chars [SQUOTE] (strip_chars [DQUOTE] (strip vp))]>
             (environ w)) w))
  /\ (forall vp : str,
        no_edge_quote (spec_unquote (strip vp)) = true ->
        strip_chars [SQUOTE] (strip_chars [DQUOTE] (strip vp))
        = spec_unquote (strip vp))
  /\ (forall env : gmap str str,
        env !! lit "FOO" = None ->
        environ (snd (_load_env_file DOTENV (world_foo_bar env)))
        = <[lit "FOO" := lit "bar"]> env).
Proof.
  split; [exact load_line_assigns|].
  split; [intros vp; apply unquote_one_layer|].
  intros env Hfree.
  assert (Hf : files (world_foo_bar env) !! DOTENV
               = Some (Readable (foo_bar_line ++ [10])))
    by apply lookup_singleton_eq.
  rewrite load_env_file_eq, load_env_body_eq, Hf.
  change (splitlines (foo_bar_line ++ [10])) with
    [lit "FOO" ++ EQUALS :: ([DQUOTE] ++ lit "bar" ++ [DQUOTE])].
  cbn [for_each]. unfold bind.
  rewrite load_line_assigns; try done.
  apply char_in_false. reflexivity.
Qed.

Lemma C1_witness :
  environ (snd (_load_env_file DOTENV (world_foo_bar ∅)))
  = <[lit "FOO" := lit "bar"]> ∅.
Proof.
  apply (proj2 (proj2 C1_loader_sets_unquoted_value) ∅). reflexivity.
Defined.

(** The claim as worded fails on the line [FOO="'bar'"]: one layer of
    matching quotes leaves ['bar'], the loader stores [bar]. *)
Lemma C1_counterexample : ~ C1_as_stated.
Proof.
  intros H.
  specialize (H (world_of ∅ ∅ all_succeed) (lit "FOO")
                ([DQUOTE; SQUOTE] ++ lit "bar" ++ [SQUOTE; DQUOTE])).
  assert (H1 : EQUALS ∉ lit "FOO") by (apply char_in_false; reflexivity).
  assert (H2 : strip (lit "FOO") <> []) by (vm_compute; discriminate).
  specialize (H H1 H2 eq_refl eq_refl eq_refl).
  vm_compute in H. discriminate H.
Qed.

(** C10 (amended). When the file has no NUL character, a key that is not
    in the environment before loading and that several lines assign
    receives the value of the first of these lines; whatever follows that
    line, later assignments to the key included, leaves the value in
    place. *)
Theorem C10_first_occurrence_wins
    (path text : str) (w : World) (l1 l2 : list str) (raw k v : str) :
  files w !! path = Some (Readable text) ->
  NUL ∉ text ->
  splitlines text = l1 ++ raw :: l2 ->
  parse_line raw = Some (k, v) ->
  Forall (fun r => forall v', parse_line r <> Some (k, v')) l1 ->
  environ w !! k = None ->
  fst (_load_env_file path w) = Ret tt
  /\ environ (snd (_load_env_file path w)) !! k = Some v.
Proof.
  intros Hfile Hnul Hlines Hraw Hfirst Hfree.
  split; [apply load_env_file_returns|].
  assert (Hall : Forall (fun r : str => NUL ∉ r) (l1 ++ raw :: l2)).
  { rewrite <- Hlines. apply Forall_forall. intros r Hr Hin.
    by apply Hnul, (splitlines_subseteq text r Hr). }
  apply Forall_app in Hall as [Hl1 Hrest].
  inversion Hrest as [|? ? Hnraw Hl2]; subst.
  rewrite load_env_file_eq, load_env_body_eq, Hfile, Hlines, for_each_app.
  destruct (for_each_load_nul_free l1 w Hl1) as (w1 & -> & _ & Hkeep).
  specialize (Hkeep k Hfirst). rewrite Hfree in Hkeep.
  cbn [for_each]. unfold bind.
  rewrite (load_line_nul_free raw w1 Hnraw), Hraw, Hkeep.
  destruct (for_each_load_nul_free l2
              (with_environ (<[k := v]> (environ w1)) w1) Hl2)
    as (w2 & -> & (Hsub & _) & _).
  simpl. eapply lookup_weaken; [|exact Hsub]. simpl. apply lookup_insert_eq.
Qed.

Lemma C10_witness :
  fst (_load_env_file DOTENV world_three_ports) = Ret tt
  /\ environ (snd (_load_env_file DOTENV world_three_ports)) !! lit "PORT"
     = Some (lit "1").
Proof.
  apply (C10_first_occurrence_wins DOTENV three_ports world_three_ports
           [lit "# ports"; lit "HOST=example"]
           [lit "PORT=2"; lit "PORT = 3"] (lit "PORT=1")).
  - vm_compute. reflexivity.
  - apply char_in_false. vm_compute. reflexivity.
  - vm_compute. reflexivity.
  - vm_compute. reflexivity.
  - repeat constructor; intros v'; vm_compute; discriminate.
  - vm_compute. reflexivity.
Defined.

(** The claim as worded fails when the first assignment is refused: the
    value of the first [PORT] line is a NUL, [os.environ] raises, the loop
    ends there, and [PORT] stays unset although a later line assigns it. *)
Lemma C10_counterexample : ~ C10_as_stated.
Proof.
  intros H.
  destruct (H DOTENV nul_port world_nul_port [] [lit "PORT=2"]
              (lit "PORT=" ++ [NUL]) (lit "PORT") [NUL]) as [_ Hv].
  - vm_compute. reflexivity.
  - vm_compute. reflexivity.
  - vm_compute. reflexivity.
  - constructor.
  - vm_compute. reflexivity.
  - vm_compute in Hv. discriminate Hv.
Qed.

(** ** The environment validator *)

Lemma loaded_frame (w : World) :
  environ w ⊆ environ (loaded w) /\ files (loaded w) = files w.
Proof.
  unfold loaded.
  destruct (load_env_file_frame DOTENV (with_log checking_record w))
    as (H1 & H2 & _).
  done.
Qed.

Lemma loaded_no_file (w : World) :
  files w !! DOTENV = None -> loaded w = with_log checking_record w.
Proof.
  intros H. unfold loaded. rewrite load_env_file_eq.
  change (files (with_log checking_record w)) with (files w). by rewrite H.
Qed.

Lemma check_eq (w : World) :
  fst (check_environment_variables w)
  = Ret (truthy_opt (environ (loaded w) !! GOOGLE_API_KEY))
  /\ environ (snd (check_environment_variables w)) = environ (loaded w)
  /\ files (snd (check_environment_variables w))
     = if truthy_opt (environ (loaded w) !! GOOGLE_API_KEY) then files w
       else match files w !! DOTENV with
            | Some _ => files w
            | None => <[DOTENV := Readable env_template]> (files w)
            end.
Proof.
  destruct (loaded_frame w) as [_ Hfiles]. revert Hfiles.
  unfold loaded, check_environment_variables, bind, logger_info,
    logger_warning, logger_log, os_getenv, path_exists, write_text, ret.
  unfold with_log, checking_record.
  pose proof (load_env_file_returns DOTENV
                (mk_World (environ w) (files w)
                   (logs w ++ [(INFO, [Text (lit "Checking environment variables...")])])
                   (spawned w) (sys_executable w) (os_exec w))) as Hret.
  destruct (_load_env_file DOTENV _) as [[[]|e] w1]; [|done].
  cbn [fst snd]. intros Hfiles.
  destruct (truthy_opt (environ w1 !! GOOGLE_API_KEY)); cbn [negb].
  - done.
  - cbn [files environ]. rewrite Hfiles.
    by destruct (files w !! DOTENV).
Qed.

(** C2. When [GOOGLE_API_KEY] is not in the environment and [.env] does
    not exist, [check_environment_variables] returns false and creates
    [.env] with the fixed template; nothing else in the file system and
    nothing in the environment changes. The template is a comment line
    followed by five assignments: the key with a placeholder, a placeholder
    secret, and the three defaults for the bind address, the port and the
    debug flag. *)
Theorem C2_missing_file_gets_template (w : World) :
  files w !! DOTENV = None ->
  environ w !! GOOGLE_API_KEY = None ->
  fst (check_environment_variables w) = Ret false
  /\ files (snd (check_environment_variables w))
     = <[DOTENV := Readable env_template]> (files w)
  /\ environ (snd (check_environment_variables w)) = environ w
  /\ splitlines env_template = env_template_lines
  /\ assignments env_template
     = [ (GOOGLE_API_KEY, lit "your_gemini_api_key_here");
         (lit "SECRET_KEY", lit "change-this-in-production");
         (lit "HOST", lit "0.0.0.0");
         (lit "PORT", lit "5001");
         (lit "DEBUG", lit "True") ].
Proof.
  intros Hfile Hkey.
  destruct (check_eq w) as (Hr & He & Hf).
  rewrite (loaded_no_file w Hfile) in *.
  change (environ (with_log checking_record w)) with (environ w) in *.
  rewrite Hkey in *. simpl in Hr, Hf. rewrite Hfile in Hf.
  repeat split; try done.
Qed.

Lemma C2_witness :
  fst (check_environment_variables world_fresh) = Ret false
  /\ files (snd (check_environment_variables world_fresh))
     = <[DOTENV := Readable env_template]> (files world_fresh).
Proof.
  destruct (C2_missing_file_gets_template world_fresh) as (H1 & H2 & _).
  - vm_compute. reflexivity.
  - vm_compute. reflexivity.
  - split; [exact H1|exact H2].
Defined.

(** C6 (amended). When [.env] exists, [check_environment_variables] leaves
    the file system as it is; if moreover [GOOGLE_API_KEY] is absent from
    the environment after the file has been loaded (so the file did not
    supply it), the function returns false. *)
Theorem C6_existing_file_untouched (w : World) :
  is_Some (files w !! DOTENV) ->
  files (snd (check_environment_variables w)) = files w
  /\ (environ (loaded w) !! GOOGLE_API_KEY = None ->
      fst (check_environment_variables w) = Ret false).
Proof.
  intros [n Hn]. destruct (check_eq w) as (Hr & _ & Hf). split.
  - rewrite Hf, Hn. by destruct (truthy_opt _).
  - intros Habs. by rewrite Hr, Habs.
Qed.

Lemma C6_witness :
  files (snd (check_environment_variables world_key_commented))
  = files world_key_commented
  /\ fst (check_environment_variables world_key_commented) = Ret false.
Proof.
  destruct (C6_existing_file_untouched world_key_commented) as [H1 H2].
  - eexists. vm_compute. reflexivity.
  - split; [exact H1|]. apply H2. vm_compute. reflexivity.
Defined.

(** The claim as worded fails when the file supplies the key: with the
    template of a previous run in place and the key absent from the
    environment, the loader sets the key and the function returns true. *)
Lemma C6_counterexample : ~ C6_as_stated.
Proof.
  intros H. destruct (H world_template_written) as [Hr _].
  - eexists. vm_compute. reflexivity.
  - vm_compute. reflexivity.
  - vm_compute in Hr. discriminate Hr.
Qed.

(** C7 (amended). When [GOOGLE_API_KEY] has a non-empty value in the
    environment the validator reads, set by the operating system or by
    the loader, [check_environment_variables] returns true and leaves the
    file system as it is. *)
Theorem C7_key_present_passes :
  (forall (w : World) (v : str),
     environ (loaded w) !! GOOGLE_API_KEY = Some v -> v <> [] ->
     fst (check_environment_variables w) = Ret true
     /\ files (snd (check_environment_variables w)) = files w)
  /\ (forall (w : World) (v : str),
        environ w !! GOOGLE_API_KEY = Some v -> v <> [] ->
        fst (check_environment_variables w) = Ret true
        /\ files (snd (check_environment_variables w)) = files w).
Proof.
  assert (H : forall (w : World) (v : str),
             environ (loaded w) !! GOOGLE_API_KEY = Some v -> v <> [] ->
             fst (check_environment_variables w) = Ret true
             /\ files (snd (check_environment_variables w)) = files w).
  { intros w v Hv Hne. destruct (check_eq w) as (Hr & _ & Hf).
    rewrite Hv in *. assert (Ht : truthy_opt (Some v) = true) by (by destruct v).
    rewrite Ht in *. done. }
  split; [exact H|]. intros w v Hv Hne. apply (H w v); [|done].
  destruct (loaded_frame w) as [Hsub _].
  eapply lookup_weaken; [exact Hv|exact Hsub].
Qed.

Lemma C7_witness :
  (fst (check_environment_variables world_key_set) = Ret true
   /\ files (snd (check_environment_variables world_key_set))
      = files world_key_set)
  /\ (fst (check_environment_variables world_template_written) = Ret true
      /\ files (snd (check_environment_variables world_template_written))
         = files world_template_written).
Proof.
  split.
  - apply (proj2 C7_key_present_passes world_key_set (lit "secret")).
    + vm_compute. reflexivity.
    + discriminate.
  - apply (proj1 C7_key_present_passes world_template_written
             (lit "your_gemini_api_key_here")).
    + vm_compute. reflexivity.
    + discriminate.
Defined.

(** The claim as worded fails for a key that is present with the empty
    value: the function returns false and, without a file, writes the
    template. *)
Lemma C7_counterexample : ~ C7_as_stated.
Proof.
  intros H. destruct (H world_empty_key) as [Hr _].
  - eexists. vm_compute. reflexivity.
  - vm_compute in Hr. discriminate Hr.
Qed.

(** ** The dependency installer *)

Lemma install_dependencies_eq (w : World) :
  install_dependencies w =
  let w1 :=
    mk_World (environ w) (files w) (logs w ++ [installing_record])
      (spawned w ++ [pip_install_argv (sys_executable w)])
      (sys_executable w) (os_exec w) in
  match pip_answer w with
  | Exited rc out err =>
      if (rc =? 0)%Z then
        (Ret true,
         with_log
           (INFO,
            [Text (CHECK_MARK ++ lit " Python dependencies installed successfully")])
           w1)
      else (Ret false, with_log (install_failed_record err) w1)
  | Failed ENOENT => (Ret false, with_log not_found_record w1)
  | Failed err => (Raise (spawn_exn err), w1)
  end.
Proof.
  unfold install_dependencies, pip_answer, bind, try_except, subprocess_run,
    logger_info, logger_error, logger_log, ret. cbn [spawned os_exec sys_executable].
  destruct (os_exec w (spawned w) (pip_install_argv (sys_executable w)))
    as [rc out err|[]]; [|done..].
  by destruct (rc =? 0)%Z.
Qed.

(** X18. [install_dependencies] returns true when the package manager
    exits with status zero. It returns false in exactly two cases: the
    package manager exits with another status, and the error record
    carries the captured [stderr] verbatim; or [subprocess.run] raises
    [FileNotFoundError], which it does when the interpreter to execute is
    not found, and the record says that requirements.txt was not found.
    Any other failure of the invocation is propagated. *)
Theorem X18_install_dependencies_outcomes (w : World) :
  let r := fst (install_dependencies w) in
  let w' := snd (install_dependencies w) in
  match pip_answer w with
  | Exited rc out err =>
      if (rc =? 0)%Z then r = Ret true
      else r = Ret false
           /\ logs w' = logs w ++ [installing_record; install_failed_record err]
  | Failed ENOENT =>
      r = Ret false /\ logs w' = logs w ++ [installing_record; not_found_record]
  | Failed err => r = Raise (spawn_exn err)
  end
  /\ (r = Ret false <->
      (exists rc out err, pip_answer w = Exited rc out err /\ rc <> 0%Z)
      \/ pip_answer w = Failed ENOENT).
Proof.
  cbv zeta. rewrite install_dependencies_eq. cbv zeta.
  destruct (pip_answer w) as [rc out err|[]]; cbn [fst snd].
  - destruct (Z.eqb_spec rc 0) as [->|Hrc]; cbn [fst snd].
    + split; [done|]. split; [done|].
      intros [(rc & o & e & [= <- _ _] & Hne)|[=]]. done.
    + split.
      * split; [done|]. unfold with_log. cbn [logs]. by rewrite <- app_assoc.
      * split; [|done]. intros _. left. by exists rc, out, err.
  - split.
    + split; [done|]. unfold with_log. cbn [logs]. by rewrite <- app_assoc.
    + split; [|done]. intros _. by right.
  - split; [done|]. split; [done|]. intros [(rc & o & e & [=] & _)|[=]].
  - split; [done|]. split; [done|]. intros [(rc & o & e & [=] & _)|[=]].
Qed.

Lemma X18_witness :
  fst (install_dependencies world_failing) = Ret false
  /\ logs (snd (install_dependencies world_failing))
     = [installing_record; install_failed_record (lit "no such table")].
Proof.
  pose proof (proj1 (X18_install_dependencies_outcomes world_failing)) as H.
  exact H.
Defined.

(** C3 (defect of the code). A missing manifest is not reported by the
    not-found record. [install_dependencies] never looks at
    [backend/requirements.txt]; when the file does not exist, the
    interpreter still runs, the package manager exits with a status other
    than zero, and the function takes the [CalledProcessError] clause:
    it returns false and logs the failed-to-install record with the
    captured [stderr]. The record that names requirements.txt is logged
    only when [subprocess.run] raises [FileNotFoundError]. *)
Theorem C3_missing_manifest_takes_exit_clause
    (w : World) (rc : Z) (out err : str) :
  files w !! MANIFEST = None ->
  pip_answer w = Exited rc out err ->
  rc <> 0%Z ->
  fst (install_dependencies w) = Ret false
  /\ logs (snd (install_dependencies w))
     = logs w ++ [installing_record; install_failed_record err]
  /\ (not_found_record ∉ [installing_record; install_failed_record err]).
Proof.
  intros _ Hpip Hrc. rewrite install_dependencies_eq. cbv zeta.
  rewrite Hpip. apply Z.eqb_neq in Hrc. rewrite Hrc. cbn [fst snd].
  split; [done|]. split.
  - unfold with_log. cbn [logs]. by rewrite <- app_assoc.
  - intros [H|H]%elem_of_cons; [discriminate H|].
    apply list_elem_of_singleton in H. discriminate H.
Qed.

Lemma C3_witness :
  fst (install_dependencies world_no_manifest) = Ret false
  /\ logs (snd (install_dependencies world_no_manifest))
     = logs world_no_manifest
       ++ [installing_record; install_failed_record missing_manifest_stderr]
  /\ (not_found_record
       ∉ [installing_record; install_failed_record missing_manifest_stderr]).
Proof.
  apply (C3_missing_manifest_takes_exit_clause world_no_manifest 1%Z []
           missing_manifest_stderr).
  - vm_compute. reflexivity.
  - vm_compute. reflexivity.
  - discriminate.
Defined.

(** ** The database initializer *)

Lemma setup_databases_eq (w : World) :
  setup_databases w =
  let exe := sys_executable w in
  let w1 :=
    mk_World (environ w) (files w)
      (logs w ++ [initializing_record; sqlite_record])
      (spawned w ++ [setup_database_argv exe]) exe (os_exec w) in
  match database_answer w with
  | Exited rc out err =>
      if (rc =? 0)%Z then
        let w2 :=
          mk_World (environ w) (files w)
            (logs w1 ++
             [(INFO, [Text (CHECK_MARK ++ lit " SQLite database initialized")]);
              (INFO, [Text (lit "Setting up ChromaDB knowledge store...")])])
            (spawned w1 ++ [setup_chromadb_argv exe]) exe (os_exec w) in
        match chromadb_answer w with
        | Exited rc' out' err' =>
            if (rc' =? 0)%Z then
              (Ret true,
               with_log
                 (INFO,
                  [Text (CHECK_MARK ++ lit " ChromaDB knowledge store initialized")])
                 w2)
            else
              (Ret false,
               with_log (setup_failed_record err') w2)
        | Failed err' => (Raise (spawn_exn err'), w2)
        end
      else
        (Ret false,
         with_log (setup_failed_record err) w1)
  | Failed err => (Raise (spawn_exn err), w1)
  end.
Proof.
  unfold setup_databases, database_answer, chromadb_answer, bind, try_except,
    subprocess_run, logger_info, logger_error, logger_log, ret.
  cbn [spawned os_exec sys_executable logs environ files].
  destruct (os_exec w (spawned w) (setup_database_argv (sys_executable w)))
    as [rc out err|[]].
  - destruct (rc =? 0)%Z.
    + cbn [spawned os_exec sys_executable logs environ files].
      destruct (os_exec w
                  (spawned w ++ [setup_database_argv (sys_executable w)])
                  (setup_chromadb_argv (sys_executable w)))
        as [rc' out' err'|[]].
      * destruct (rc' =? 0)%Z; cbn; unfold with_log; cbn;
          by rewrite <- ?app_assoc.
      * cbn. by rewrite <- ?app_assoc.
      * cbn. by rewrite <- ?app_assoc.
      * cbn. by rewrite <- ?app_assoc.
    + cbn. unfold with_log. cbn. by rewrite <- ?app_assoc.
  - cbn. by rewrite <- ?app_assoc.
  - cbn. by rewrite <- ?app_assoc.
  - cbn. by rewrite <- ?app_assoc.
Qed.

Lemma argv_distinct (exe : str) :
  setup_chromadb_argv exe <> setup_database_argv exe.
Proof. unfold setup_chromadb_argv, setup_database_argv. intros [=]. Qed.

(** C5. If the relational-store setup exits with a status other than zero,
    [setup_databases] has invoked that program only (the vector-store
    setup is not among the invocations it added), its last log record is
    the error carrying the captured [stderr], and it returns false. It
    returns true exactly when both programs exit with status zero. *)
Theorem C5_setup_databases_short_circuits (w : World) :
  let r := fst (setup_databases w) in
  let w' := snd (setup_databases w) in
  let exe := sys_executable w in
  (forall rc out err,
     database_answer w = Exited rc out err -> rc <> 0%Z ->
     r = Ret false
     /\ spawned w' = spawned w ++ [setup_database_argv exe]
     /\ (setup_chromadb_argv exe ∉ drop (length (spawned w)) (spawned w'))
     /\ logs w'
        = logs w ++ [initializing_record; sqlite_record;
                     setup_failed_record err])
  /\ (r = Ret true <->
      exists out1 err1 out2 err2,
        database_answer w = Exited 0 out1 err1
        /\ chromadb_answer w = Exited 0 out2 err2).
Proof.
  cbv zeta. rewrite setup_databases_eq. cbv zeta. split.
  - intros rc out err -> Hrc.
    apply Z.eqb_neq in Hrc. rewrite Hrc. cbn [fst snd with_log spawned logs].
    split; [done|]. split; [done|]. split.
    + rewrite drop_app_length. intros Hin.
      apply list_elem_of_singleton in Hin. by apply argv_distinct in Hin.
    + by rewrite <- app_assoc.
  - destruct (database_answer w) as [rc out err|e1].
    + destruct (Z.eqb_spec rc 0) as [->|Hrc].
      * destruct (chromadb_answer w) as [rc' out' err'|e2].
        -- destruct (Z.eqb_spec rc' 0) as [->|Hrc']; cbn [fst].
           ++ split; [|done]. intros _. by exists out, err, out', err'.
           ++ split; [done|].
              intros (o1 & e1 & o2 & e2 & _ & [= Hz _ _]). congruence.
        -- cbn [fst]. split; [done|].
           intros (o1 & e1' & o2 & e2' & _ & [=]).
      * cbn [fst]. split; [done|].
        intros (o1 & e1 & o2 & e2 & [= Hz _ _] & _). congruence.
    + cbn [fst]. split; [done|].
      intros (o1 & e1' & o2 & e2' & [=] & _).
Qed.

Lemma C5_witness :
  fst (setup_databases world_failing) = Ret false
  /\ spawned (snd (setup_databases world_failing))
     = [setup_database_argv (sys_executable world_failing)]
  /\ logs (snd (setup_databases world_failing))
     = [initializing_record; sqlite_record;
        setup_failed_record (lit "no such table")].
Proof.
  destruct (proj1 (C5_setup_databases_short_circuits world_failing)
              1%Z [] (lit "no such table"))
    as (H1 & H2 & _ & H3).
  - vm_compute. reflexivity.
  - discriminate.
  - split; [exact H1|]. split; [exact H2|exact H3].
Defined.

(** ** Further properties of the environment loader *)

Lemma find_split_char_none (c : N) (s : str) :
  c ∉ s -> find_split [c] s = None.
Proof.
  intros Hc. destruct (find_split [c] s) as [[a b]|] eqn:E; [|done].
  apply find_split_char_inv in E as [-> _].
  exfalso. apply Hc, elem_of_app. right. left.
Qed.

Lemma parse_line_skipped (raw : str) :
  strip raw = [] \/ startswith [HASH] (strip raw) = true
  \/ (EQUALS ∉ strip raw) ->
  parse_line raw = None.
Proof.
  intros H. unfold parse_line. rewrite lit_hash, lit_equals. unfold str_in.
  destruct H as [H|[H|H]].
  - by rewrite H.
  - rewrite H. by rewrite orb_true_r.
  - rewrite (find_split_char_none _ _ H). simpl. by rewrite !orb_true_r.
Qed.

Lemma for_each_all_skipped (ls : list str) (w : World) :
  Forall (fun r => parse_line r = None) ls ->
  for_each ls load_line w = (Ret tt, w).
Proof.
  induction 1 as [|raw ls Hraw _ IH]; [done|].
  cbn [for_each]. unfold bind. by rewrite load_line_spec, Hraw.
Qed.

(** X1. A configuration file in which every line is blank, a comment
    (first character after trimming is the hash sign) or without a
    separator is loaded without any effect: the loader returns normally
    and the state, the log included, is what it was. *)
Theorem X1_comments_and_blanks_load_nothing
    (path text : str) (w : World) :
  files w !! path = Some (Readable text) ->
  Forall (fun raw : str =>
            strip raw = [] \/ startswith [HASH] (strip raw) = true
            \/ (EQUALS ∉ strip raw))
         (splitlines text) ->
  _load_env_file path w = (Ret tt, w).
Proof.
  intros Hfile Hall.
  rewrite load_env_file_eq, load_env_body_eq, Hfile.
  rewrite for_each_all_skipped; [done|].
  eapply Forall_impl; [exact Hall|]. intros raw. apply parse_line_skipped.
Qed.

Lemma X1_witness :
  _load_env_file DOTENV world_comments_only = (Ret tt, world_comments_only).
Proof.
  apply (X1_comments_and_blanks_load_nothing DOTENV comments_only).
  - vm_compute. reflexivity.
  - change (splitlines comments_only) with
      [lit "# settings"; []; lit "   "; lit "  # PORT=1"; lit "plain words"].
    constructor; [right; left; reflexivity|].
    constructor; [left; reflexivity|].
    constructor; [left; reflexivity|].
    constructor; [right; left; reflexivity|].
    constructor; [right; right; apply char_in_false; reflexivity|].
    constructor.
Defined.

Lemma with_environ_same (w : World) : with_environ (environ w) w = w.
Proof. by destruct w. Qed.

Lemma union_insert_present (m1 m2 : gmap str str) (k v x : str) :
  m1 !! k = Some x -> m1 ∪ <[k := v]> m2 = m1 ∪ m2.
Proof.
  intros Hk. apply map_eq. intros i. rewrite !lookup_union.
  destruct (decide (k = i)) as [<-|Hne].
  - rewrite Hk. by destruct (m2 !! k), (<[k:=v]> m2 !! k).
  - by rewrite lookup_insert_ne.
Qed.

(** The loop over lines without NUL, in closed form. *)
Lemma for_each_load_union (ls : list str) (w : World) :
  Forall (fun r : str => NUL ∉ r) ls ->
  for_each ls load_line w
  = (Ret tt,
     with_environ (environ w ∪ list_to_map (omap parse_line ls)) w).
Proof.
  revert w. induction ls as [|raw ls IH]; intros w Hnul.
  { cbn. by rewrite (right_id_L ∅ (∪)), with_environ_same. }
  inversion Hnul as [|? ? Hraw Hls]; subst.
  cbn [for_each]. unfold bind. rewrite (load_line_nul_free raw w Hraw).
  rewrite IH by done. cbn [omap list_omap].
  destruct (parse_line raw) as [[k v]|]; [|done].
  destruct (environ w !! k) as [x|] eqn:Hk.
  - cbn [list_to_map foldr fst snd]. by rewrite (union_insert_present _ _ k v x).
  - unfold with_environ. cbn [environ files logs spawned sys_executable os_exec].
    cbn [list_to_map foldr fst snd].
    by rewrite <- insert_union_l, insert_union_r.
Qed.

Lemma load_env_file_closed_form (path text : str) (w : World) :
  files w !! path = Some (Readable text) ->
  NUL ∉ text ->
  _load_env_file path w
  = (Ret tt,
     with_environ (environ w ∪ list_to_map (omap parse_line (splitlines text)))
       w).
Proof.
  intros Hfile Hnul.
  rewrite load_env_file_eq, load_env_body_eq, Hfile.
  rewrite for_each_load_union; [done|].
  apply Forall_forall. intros r Hr Hin.
  by apply Hnul, (splitlines_subseteq text r Hr).
Qed.

(** X2. For a configuration file without NUL character, the loader
    returns normally, logs nothing, and the environment afterwards is the
    environment before, completed by the assignments of the file: a key
    of the environment keeps its value, and among the lines that assign
    a new key the first one decides. Nothing else in the state changes. *)
Theorem X2_loader_environment_is_union (path text : str) (w : World) :
  files w !! path = Some (Readable text) ->
  NUL ∉ text ->
  _load_env_file path w
  = (Ret tt,
     with_environ (environ w ∪ list_to_map (assignments text)) w).
Proof. apply load_env_file_closed_form. Qed.

Lemma X2_witness :
  environ (snd (_load_env_file DOTENV world_host_set))
  = {[ lit "HOST" := lit "localhost"; lit "PORT" := lit "1" ]}.
Proof.
  rewrite (X2_loader_environment_is_union DOTENV three_ports world_host_set).
  - vm_compute. reflexivity.
  - vm_compute. reflexivity.
  - apply char_in_false. vm_compute. reflexivity.
Defined.

Lemma environ_setitem_raise (k v : str) (w : World) (e : exn) (w' : World) :
  environ_setitem k v w = (Raise e, w') ->
  w' = w /\ forall w2, environ_setitem k v w2 = (Raise e, w2).
Proof.
  unfold environ_setitem.
  destruct (char_in k NUL || char_in v NUL).
  { intros [= <- <-]. by split. }
  destruct (negb (truthy k) || char_in k EQUALS); [|done].
  intros [= <- <-]. by split.
Qed.

(** Running the loop again from a state with the environment the first
    run produced repeats the outcome and changes nothing. *)
Lemma for_each_load_again (ls : list str) :
  forall (w : World) (r : outcome unit) (w' : World),
    for_each ls load_line w = (r, w') ->
    forall w2 : World,
      environ w2 = environ w' -> environ w ⊆ environ w2 ->
      for_each ls load_line w2 = (r, w2).
Proof.
  induction ls as [|raw ls IH]; intros w r w' Hrun w2 Heq Hsub.
  { cbn in Hrun. injection Hrun as <- <-. done. }
  cbn [for_each] in *. unfold bind in *.
  rewrite load_line_spec in Hrun. rewrite load_line_spec.
  destruct (parse_line raw) as [[k v]|]; [|by eapply IH].
  destruct (environ w !! k) as [x|] eqn:Hk.
  { rewrite (lookup_weaken _ _ _ _ Hk Hsub). by eapply IH. }
  destruct (environ_setitem_cases k v w) as [Hs|(e & Hs & _)].
  - rewrite Hs in Hrun.
    pose proof (for_each_load_extends ls
                  (with_environ (<[k := v]> (environ w)) w)) as (Hext & _).
    rewrite Hrun in Hext. cbn [snd] in Hext. rewrite <- Heq in Hext.
    assert (Hin : environ w2 !! k = Some v).
    { eapply lookup_weaken; [|exact Hext]. cbn. apply lookup_insert_eq. }
    rewrite Hin. eapply IH; [exact Hrun|exact Heq|exact Hext].
  - rewrite Hs in Hrun. injection Hrun as <- <-.
    rewrite Heq, Hk.
    by destruct (environ_setitem_raise k v w e w Hs) as [_ ->].
Qed.

(** X3. Loading the same file a second time adds nothing: the environment
    after two calls of the loader is the environment after one, whatever
    the file holds and whether or not the first call stopped at a refused
    assignment. *)
Theorem X3_loading_twice_adds_nothing (path : str) (w : World) :
  environ (snd (_load_env_file path (snd (_load_env_file path w))))
  = environ (snd (_load_env_file path w)).
Proof.
  rewrite (load_env_file_eq path w), (load_env_body_eq path w).
  destruct (files w !! path) as [[text|e]|] eqn:Hfile; cbn [snd].
  - destruct (for_each (splitlines text) load_line w) as [r w1] eqn:Hrun.
    pose proof (for_each_load_extends (splitlines text) w) as Hext.
    rewrite Hrun in Hext. cbn [snd] in Hext.
    destruct Hext as (Hsub & Hf & _).
    assert (Hagain : forall w2 : World,
               environ w2 = environ w1 -> files w2 = files w ->
               environ (snd (_load_env_file path w2)) = environ w2).
    { intros w2 He Hf2.
      rewrite load_env_file_eq, load_env_body_eq, Hf2, Hfile.
      rewrite (for_each_load_again _ w r w1 Hrun w2 He) by (by rewrite He).
      by destruct r as [[]|e]. }
    destruct r as [[]|e]; cbn [snd]; by apply Hagain.
  - rewrite load_env_file_eq, load_env_body_eq. cbn [files with_log].
    by rewrite Hfile.
  - by rewrite load_env_file_eq, Hfile.
Qed.

Lemma strip_by_idemp p (s : str) : strip_by p (strip_by p s) = strip_by p s.
Proof.
  unfold strip_by at 2. by rewrite strip_by_rstrip, strip_by_lstrip.
Qed.

Lemma parse_line_key_trimmed (raw k v : str) :
  parse_line raw = Some (k, v) -> strip k = k.
Proof.
  unfold parse_line.
  destruct (negb (truthy (strip raw)) || startswith (lit "#") (strip raw)
            || negb (str_in (lit "=") (strip raw))); [done|].
  destruct (find_split (lit "=") (strip raw)) as [[a b]|]; [|done].
  destruct (truthy (strip a)); [|done]. intros [= <- _].
  apply strip_by_idemp.
Qed.

(** X4. One iteration of the loop can fail in one way only: the line
    assigns a key that is not in the environment and the key or the value
    has an embedded NUL, so that [os.environ] raises [ValueError]. The
    unpacking of the split never fails, the key is never refused as an
    illegal name, and the failing iteration changes nothing. *)
Theorem X4_line_fails_only_on_nul
    (raw : str) (w : World) (e : exn) (w' : World) :
  load_line raw w = (Raise e, w') ->
  w' = w
  /\ e = simple_exn ValueError (lit "embedded null byte")
  /\ exists k v : str,
       parse_line raw = Some (k, v)
       /\ environ w !! k = None
       /\ (NUL ∈ k \/ NUL ∈ v).
Proof.
  rewrite load_line_spec.
  destruct (parse_line raw) as [[k v]|] eqn:Hp; [|done].
  destruct (environ w !! k) eqn:Hk; [done|].
  apply parse_line_inv in Hp as (Hne & Heq & _ & _).
  unfold environ_setitem.
  destruct (char_in k NUL || char_in v NUL) eqn:Hnul.
  - intros [= <- <-]. split; [done|]. split; [done|].
    exists k, v. split; [done|]. split; [done|].
    apply orb_true_iff in Hnul as [H|H]; apply char_in_true in H; tauto.
  - apply char_in_false in Heq. rewrite Heq.
    destruct k; [done|]. done.
Qed.

Lemma X4_witness :
  world_fresh = world_fresh
  /\ simple_exn ValueError (lit "embedded null byte")
     = simple_exn ValueError (lit "embedded null byte")
  /\ exists k v : str,
       parse_line (lit "B=" ++ [NUL]) = Some (k, v)
       /\ environ world_fresh !! k = None
       /\ (NUL ∈ k \/ NUL ∈ v).
Proof.
  apply (X4_line_fails_only_on_nul (lit "B=" ++ [NUL]) world_fresh).
  vm_compute. reflexivity.
Defined.

Lemma for_each_load_provenance (ls : list str) :
  forall (w : World) (k v : str),
    environ (snd (for_each ls load_line w)) !! k = Some v ->
    environ w !! k = Some v
    \/ exists raw, raw ∈ ls /\ parse_line raw = Some (k, v)
                   /\ (NUL ∉ k) /\ (NUL ∉ v).
Proof.
  induction ls as [|raw ls IH]; intros w k v Hk; [by left|].
  cbn [for_each] in Hk. unfold bind in Hk. rewrite load_line_spec in Hk.
  assert (Hlater : forall w1 : World,
             environ (snd (for_each ls load_line w1)) !! k = Some v ->
             environ w1 = environ w ->
             environ w !! k = Some v
             \/ exists raw0, raw0 ∈ raw :: ls /\ parse_line raw0 = Some (k, v)
                             /\ (NUL ∉ k) /\ (NUL ∉ v)).
  { intros w1 H1 He. destruct (IH w1 k v H1) as [H|(r & Hr & Hp)].
    - left. by rewrite <- He.
    - right. exists r. split; [by right|done]. }
  destruct (parse_line raw) as [[k0 v0]|] eqn:Hp; [|by apply (Hlater w)].
  destruct (environ w !! k0) eqn:Hk0; [by apply (Hlater w)|].
  unfold environ_setitem in Hk.
  destruct (char_in k0 NUL || char_in v0 NUL) eqn:Hnul; [by left|].
  destruct (negb (truthy k0) || char_in k0 EQUALS); [by left|].
  apply orb_false_iff in Hnul as [Hn1 Hn2].
  apply char_in_false in Hn1, Hn2.
  destruct (IH _ k v Hk) as [H|(r & Hr & Hpr)].
  - cbn in H. destruct (decide (k0 = k)) as [->|Hne].
    + rewrite lookup_insert_eq in H. injection H as ->.
      right. exists raw. split; [left|done].
    + rewrite lookup_insert_ne in H by done. by left.
  - right. exists r. split; [by right|done].
Qed.

(** X5. The loader invents no binding: a binding of the environment after
    the call was there before, or it is the key and the value of one of
    the lines of the file; such a key is not empty, is trimmed, and has no
    separator, and neither it nor its value has a NUL. *)
Theorem X5_bindings_come_from_the_file
    (path : str) (w : World) (k v : str) :
  environ (snd (_load_env_file path w)) !! k = Some v ->
  environ w !! k = Some v
  \/ exists text raw : str,
       files w !! path = Some (Readable text)
       /\ raw ∈ splitlines text
       /\ parse_line raw = Some (k, v)
       /\ k <> [] /\ strip k = k /\ (EQUALS ∉ k)
       /\ (NUL ∉ k) /\ (NUL ∉ v).
Proof.
  rewrite load_env_file_eq, load_env_body_eq.
  destruct (files w !! path) as [[text|e]|] eqn:Hfile; [|by left..].
  intros Hk.
  assert (Hrun : environ (snd (for_each (splitlines text) load_line w)) !! k
                 = Some v).
  { by destruct (for_each (splitlines text) load_line w) as [[[]|e] w1]. }
  destruct (for_each_load_provenance _ w k v Hrun)
    as [H|(raw & Hraw & Hp & Hn1 & Hn2)]; [by left|].
  right. exists text, raw.
  pose proof (parse_line_inv raw k v Hp) as (Hne & Heq & _ & _).
  pose proof (parse_line_key_trimmed raw k v Hp) as Htrim.
  done.
Qed.

Lemma X5_witness :
  environ world_host_set !! lit "PORT" = Some (lit "1")
  \/ exists text raw : str,
       files world_host_set !! DOTENV = Some (Readable text)
       /\ raw ∈ splitlines text
       /\ parse_line raw = Some (lit "PORT", lit "1")
       /\ lit "PORT" <> [] /\ strip (lit "PORT") = lit "PORT"
       /\ (EQUALS ∉ lit "PORT")
       /\ (NUL ∉ lit "PORT") /\ (NUL ∉ lit "1").
Proof.
  apply (X5_bindings_come_from_the_file DOTENV world_host_set).
  vm_compute. reflexivity.
Defined.

(** X6. A refused assignment ends the loading. If the lines before a line
    with a NUL in its key or value are free of NUL and leave its key
    unset, the loader returns normally with the assignments of those
    earlier lines in place, one warning for the [ValueError] in the log,
    and no effect of any later line. *)
Theorem X6_refused_assignment_stops_loading
    (path text : str) (w : World) (l1 l2 : list str) (raw k v : str) :
  files w !! path = Some (Readable text) ->
  splitlines text = l1 ++ raw :: l2 ->
  Forall (fun r : str => NUL ∉ r) l1 ->
  parse_line raw = Some (k, v) ->
  NUL ∈ k \/ NUL ∈ v ->
  (environ w ∪ list_to_map (omap parse_line l1)) !! k = None ->
  _load_env_file path w
  = (Ret tt,
     with_log (parse_warning embedded_null)
       (with_environ (environ w ∪ list_to_map (omap parse_line l1)) w)).
Proof.
  intros Hfile Hlines Hl1 Hp Hnul Hfree.
  rewrite load_env_file_eq, load_env_body_eq, Hfile, Hlines, for_each_app.
  rewrite (for_each_load_union l1 w Hl1).
  cbn [for_each]. unfold bind. rewrite load_line_spec, Hp.
  cbn [environ with_environ]. rewrite Hfree.
  unfold environ_setitem.
  assert (Hc : char_in k NUL || char_in v NUL = true).
  { apply orb_true_iff.
    destruct Hnul as [H|H]; apply char_in_true in H; tauto. }
  by rewrite Hc.
Qed.

Lemma X6_witness :
  _load_env_file DOTENV world_nul_second
  = (Ret tt,
     with_log (parse_warning embedded_null)
       (with_environ
          (environ world_nul_second
           ∪ list_to_map (omap parse_line [lit "A=1"]))
          world_nul_second)).
Proof.
  apply (X6_refused_assignment_stops_loading DOTENV nul_second
           world_nul_second [lit "A=1"] [lit "C=3"] (lit "B=" ++ [NUL])
           (lit "B") [NUL]).
  - vm_compute. reflexivity.
  - vm_compute. reflexivity.
  - constructor; [apply char_in_false; reflexivity|constructor].
  - vm_compute. reflexivity.
  - right. apply char_in_true. reflexivity.
  - vm_compute. reflexivity.
Defined.

(** X7. Whatever the file holds, the loader leaves the file system and the
    recorded invocations as they are, and it appends at most one record
    to the log: the warning for the exception that ended its [try]
    block. *)
Theorem X7_loader_frame (path : str) (w : World) :
  let w' := snd (_load_env_file path w) in
  files w' = files w
  /\ spawned w' = spawned w
  /\ (logs w' = logs w
      \/ exists e : exn,
           fst (load_env_body path w) = Raise e
           /\ logs w' = logs w ++ [parse_warning e]).
Proof.
  cbv zeta. rewrite load_env_file_eq.
  destruct (files w !! path) as [n|] eqn:Hfile; [|by repeat split; try left].
  rewrite load_env_body_eq, Hfile.
  destruct n as [text|e].
  - pose proof (for_each_load_extends (splitlines text) w) as Hext.
    destruct (for_each (splitlines text) load_line w) as [[[]|e] w1];
      cbn [snd fst] in *; destruct Hext as (_ & Hf & Hl & Hs & _).
    + repeat split; try done. by left.
    + repeat split; try done. right. exists e. cbn. by rewrite Hl.
  - repeat split; try done. right. by exists e.
Qed.

(** ** Further properties of the environment validator *)

(** X8. The validator accepts its own template. After a run that found
    neither the key nor a configuration file, and so wrote the template,
    the next run loads the placeholder from the file, returns true, and
    leaves the file as written. *)
Theorem X8_second_run_accepts_placeholder (w : World) :
  files w !! DOTENV = None ->
  environ w !! GOOGLE_API_KEY = None ->
  let w1 := snd (check_environment_variables w) in
  fst (check_environment_variables w) = Ret false
  /\ fst (check_environment_variables w1) = Ret true
  /\ environ (snd (check_environment_variables w1)) !! GOOGLE_API_KEY
     = Some (lit "your_gemini_api_key_here")
  /\ files (snd (check_environment_variables w1)) = files w1.
Proof.
  intros Hfile Hkey. cbv zeta.
  destruct (check_eq w) as (Hr & He & Hf).
  rewrite (loaded_no_file w Hfile) in Hr, He, Hf.
  change (environ (with_log checking_record w)) with (environ w) in Hr, He, Hf.
  rewrite Hkey in Hr, Hf. cbn [truthy_opt] in Hr, Hf. rewrite Hfile in Hf.
  split; [exact Hr|].
  set (w1 := snd (check_environment_variables w)) in *.
  assert (Hload : environ (loaded w1) !! GOOGLE_API_KEY
                  = Some (lit "your_gemini_api_key_here")).
  { unfold loaded.
    rewrite (load_env_file_closed_form DOTENV env_template).
    - cbn [snd environ with_environ with_log]. rewrite He.
      rewrite lookup_union_r by exact Hkey. vm_compute. reflexivity.
    - cbn [files with_log]. rewrite Hf. apply lookup_insert_eq.
    - apply char_in_false. vm_compute. reflexivity. }
  destruct (check_eq w1) as (Hr1 & He1 & Hf1).
  rewrite Hload in Hr1, Hf1.
  change (truthy_opt (Some (lit "your_gemini_api_key_here"))) with true
    in Hr1, Hf1.
  by rewrite He1.
Qed.

Lemma X8_witness :
  fst (check_environment_variables world_fresh) = Ret false
  /\ fst (check_environment_variables
            (snd (check_environment_variables world_fresh))) = Ret true.
Proof.
  destruct (X8_second_run_accepts_placeholder world_fresh) as (H1 & H2 & _).
  - vm_compute. reflexivity.
  - vm_compute. reflexivity.
  - split; [exact H1|exact H2].
Defined.

(** X9. The validator returns true exactly when the key has a non-empty
    value after the file has been loaded. It keeps every binding of the
    environment, and the only path of the file system it can change is
    [.env]. *)
Theorem X9_validator_outcome (w : World) :
  let r := fst (check_environment_variables w) in
  let w' := snd (check_environment_variables w) in
  (r = Ret true <->
   exists v : str, environ (loaded w) !! GOOGLE_API_KEY = Some v /\ v <> [])
  /\ environ w ⊆ environ w'
  /\ (forall p : str, p <> DOTENV -> files w' !! p = files w !! p).
Proof.
  cbv zeta. destruct (check_eq w) as (Hr & He & Hf).
  destruct (loaded_frame w) as [Hsub _].
  split; [|split].
  - rewrite Hr. destruct (environ (loaded w) !! GOOGLE_API_KEY) as [v|].
    + destruct v as [|c v]; cbn.
      * split; [done|]. by intros (v' & [= <-] & Hne).
      * split; [|done]. intros _. by exists (c :: v).
    + cbn. split; [done|]. by intros (v' & [=] & _).
  - by rewrite He.
  - intros p Hp. rewrite Hf.
    destruct (truthy_opt _); [done|].
    destruct (files w !! DOTENV); [done|]. by rewrite lookup_insert_ne.
Qed.

Lemma X9_witness :
  fst (check_environment_variables world_key_set) = Ret true.
Proof.
  destruct (X9_validator_outcome world_key_set) as (H & _).
  apply H. exists (lit "secret"). split; [vm_compute; reflexivity|discriminate].
Defined.

(** ** Further properties of the installer and of the initializer *)

(** X10. [install_dependencies] invokes the package manager exactly once,
    whatever the outcome, with the interpreter and the arguments
    [-m pip install -r backend/requirements.txt]; it leaves the
    environment of the script as it is. *)
Theorem X10_installer_invokes_pip_once (w : World) :
  let w' := snd (install_dependencies w) in
  spawned w'
  = spawned w
    ++ [[sys_executable w; lit "-m"; lit "pip"; lit "install"; lit "-r";
         lit "backend/requirements.txt"]]
  /\ environ w' = environ w.
Proof.
  cbv zeta. rewrite install_dependencies_eq. cbv zeta.
  destruct (pip_answer w) as [rc out err|[]]; [|done..].
  by destruct (rc =? 0)%Z.
Qed.

(** X11. [setup_databases] invokes the relational-store setup first; it
    invokes the vector-store setup after it exactly when the first
    program exits with status zero, and nothing else. The environment of
    the script is left as it is. *)
Theorem X11_initializer_invocations (w : World) :
  let w' := snd (setup_databases w) in
  let exe := sys_executable w in
  spawned w'
  = spawned w
    ++ [exe; lit "setup_database.py"]
       :: match database_answer w with
          | Exited rc _ _ =>
              if (rc =? 0)%Z then [[exe; lit "setup_chromadb.py"]] else []
          | Failed _ => []
          end
  /\ environ w' = environ w.
Proof.
  cbv zeta. rewrite setup_databases_eq. cbv zeta.
  destruct (database_answer w) as [rc out err|e]; [|done].
  destruct (rc =? 0)%Z; [|done].
  destruct (chromadb_answer w) as [rc' out' err'|e'].
  - destruct (rc' =? 0)%Z; cbn; by rewrite <- app_assoc.
  - cbn. by rewrite <- app_assoc.
Qed.

(** X12. No rollback and the right diagnosis: when the relational-store
    setup exits with status zero and the vector-store setup with another
    status, the log holds the success record of the first step followed
    by the error record with the [stderr] of the second program. *)
Theorem X12_second_step_failure (w : World) (out1 err1 out2 err2 : str)
    (rc : Z) :
  database_answer w = Exited 0 out1 err1 ->
  chromadb_answer w = Exited rc out2 err2 ->
  rc <> 0%Z ->
  logs (snd (setup_databases w))
  = logs w ++ [initializing_record; sqlite_record; sqlite_done_record;
               chromadb_record; setup_failed_record err2].
Proof.
  intros H1 H2 Hrc. rewrite setup_databases_eq. cbv zeta.
  rewrite H1, H2. apply Z.eqb_neq in Hrc. rewrite Hrc.
  cbn. by rewrite <- !app_assoc.
Qed.

Lemma X12_witness :
  logs (snd (setup_databases world_second_fails))
  = logs world_second_fails
    ++ [initializing_record; sqlite_record; sqlite_done_record;
        chromadb_record; setup_failed_record (lit "no collection")].
Proof.
  apply (X12_second_step_failure world_second_fails (lit "created") []
           [] (lit "no collection") 2%Z).
  - vm_compute. reflexivity.
  - vm_compute. reflexivity.
  - discriminate.
Defined.

(** ** The version guard *)

Lemma tuple_lt_pair (a b c x y : Z) :
  tuple_lt [a; b; c] [x; y] = true <-> (a < x \/ (a = x /\ b < y))%Z.
Proof.
  cbn. destruct (Z.eqb_spec a x) as [->|Hne].
  - destruct (Z.eqb_spec b y) as [->|Hne'].
    + split; [done|lia].
    + rewrite Z.ltb_lt. lia.
  - rewrite Z.ltb_lt. lia.
Qed.

(** X13. [check_python_version] returns true exactly when the running
    interpreter is at least 3.8: the major version is above 3, or it is 3
    and the minor version is at least 8; micro version, release level and
    serial play no part. It never raises, logs one record (an error when
    it returns false) and changes nothing else. *)
Theorem X13_version_guard (v : version_info) (version : str) (w : World) :
  let r := fst (check_python_version v version w) in
  let w' := snd (check_python_version v version w) in
  (r = Ret true <-> (3 < major v \/ (major v = 3 /\ 8 <= minor v))%Z)
  /\ (r = Ret false <-> (major v < 3 \/ (major v = 3 /\ minor v < 8))%Z)
  /\ (exists record, logs w' = logs w ++ [record]
                     /\ (r = Ret false -> fst record = ERROR))
  /\ environ w' = environ w
  /\ files w' = files w
  /\ spawned w' = spawned w.
Proof.
  cbv zeta. unfold check_python_version, version_info_lt.
  pose proof (tuple_lt_pair (major v) (minor v) (micro v) 3 8) as Hlt.
  destruct (tuple_lt [major v; minor v; micro v] [3%Z; 8%Z]); cbn.
  - assert (H : (major v < 3 \/ major v = 3 /\ minor v < 8)%Z)
      by (by apply Hlt).
    repeat split; try done; try lia.
    eexists. split; [reflexivity|done].
  - assert (H : ~ (major v < 3 \/ major v = 3 /\ minor v < 8)%Z).
    { intros H. apply Hlt in H. done. }
    repeat split; try done; try lia.
    eexists. split; [reflexivity|done].
Qed.


Lemma X13_witness :
  fst (check_python_version (mk_version_info 3 7 9 (lit "final") 0)
         (lit "3.7.9") world_fresh) = Ret false.
Proof.
  destruct (X13_version_guard (mk_version_info 3 7 9 (lit "final") 0)
              (lit "3.7.9") world_fresh) as (_ & H & _).
  apply H. right. cbn. lia.
Defined.

(** ** The directory provisioner *)

Lemma file_among_dec (qs : list (list str)) (t : gmap (list str) kind) :
  Exists (fun q => t !! q = Some RegularFile) qs
  \/ Forall (fun q => t !! q <> Some RegularFile) qs.
Proof.
  induction qs as [|q qs [IH|IH]]; [right; constructor|left; by right|].
  destruct (t !! q) as [[]|] eqn:E.
  - right. constructor; [by rewrite E|done].
  - left. by left.
  - right. constructor; [by rewrite E|done].
Qed.

Lemma self_and_ancestors_length (p q : list str) :
  q ∈ self_and_ancestors p -> (length q <= length p)%nat.
Proof.
  induction p as [|c p IH]; cbn; [by intros ?%elem_of_nil|].
  intros [->|H]%elem_of_cons; [done|]. apply IH in H. lia.
Qed.

Lemma not_in_ancestors (c : str) (p : list str) :
  c :: p ∉ self_and_ancestors p.
Proof. intros H%self_and_ancestors_length. cbn in H. lia. Qed.

Lemma with_dirs_lookup_in (qs : list (list str)) t (q : list str) :
  q ∈ qs -> with_dirs qs t !! q = Some Directory.
Proof.
  induction qs as [|q0 qs IH]; [by intros ?%elem_of_nil|].
  cbn. intros [->|H]%elem_of_cons; [apply lookup_insert_eq|].
  destruct (decide (q0 = q)) as [->|Hne]; [apply lookup_insert_eq|].
  rewrite lookup_insert_ne by done. by apply IH.
Qed.

Lemma with_dirs_lookup_out (qs : list (list str)) t (q : list str) :
  q ∉ qs -> with_dirs qs t !! q = t !! q.
Proof.
  induction qs as [|q0 qs IH]; [done|].
  intros [Hne Hq]%not_elem_of_cons. cbn.
  rewrite lookup_insert_ne by done. by apply IH.
Qed.

Lemma with_dirs_id (qs : list (list str)) t :
  Forall (fun q => t !! q = Some Directory) qs -> with_dirs qs t = t.
Proof.
  induction 1 as [|q qs Hq _ IH]; [done|].
  unfold with_dirs in *. cbn [foldr]. rewrite IH. by apply insert_id.
Qed.

Lemma resolve_directory (p : list str) t :
  resolve p t = Found Directory <->
  Forall (fun q => t !! q = Some Directory) (self_and_ancestors p).
Proof.
  induction p as [|c p IH]; cbn; [by split; [constructor|]|].
  split.
  - destruct (resolve p t) as [[]| |]; try done.
    destruct (t !! (c :: p)) as [k|] eqn:E; [|done]. intros [= ->].
    constructor; [done|]. by apply IH.
  - intros H. inversion H as [|? ? Hp Hrest]; subst.
    apply IH in Hrest. by rewrite Hrest, Hp.
Qed.

Lemma resolve_no_file (p : list str) t :
  Forall (fun q => t !! q <> Some RegularFile) (self_and_ancestors p) ->
  resolve p t = Found Directory \/ resolve p t = NoEntry.
Proof.
  induction p as [|c p IH]; cbn; [by left|].
  intros H. inversion H as [|? ? Hp Hrest]; subst.
  destruct (IH Hrest) as [->| ->]; [|by right].
  destruct (t !! (c :: p)) as [[]|]; [by left|done|by right].
Qed.

Lemma resolve_with_dirs (p : list str) t :
  resolve p (with_dirs (self_and_ancestors p) t) = Found Directory.
Proof.
  apply resolve_directory, Forall_forall. intros q Hq.
  by apply with_dirs_lookup_in.
Qed.

(** Without a regular file in the way the directory and its ancestors
    are made, and nothing else changes. *)
Lemma mkdir_parents_ok (p : list str) t :
  Forall (fun q => t !! q <> Some RegularFile) (self_and_ancestors p) ->
  mkdir_parents p true t = (None, with_dirs (self_and_ancestors p) t).
Proof.
  revert t. induction p as [|c p IH]; intros t H; [done|].
  inversion H as [|? ? Hp Hrest]; subst.
  cbn [mkdir_parents os_mkdir self_and_ancestors with_dirs foldr].
  fold (with_dirs (self_and_ancestors p) t).
  destruct (resolve_no_file p t Hrest) as [R|R]; rewrite R.
  - pose proof (proj1 (resolve_directory p t) R) as Hall.
    rewrite (with_dirs_id _ _ Hall).
    destruct (t !! (c :: p)) as [[]|] eqn:E; [|done|done].
    unfold is_dir. cbn [resolve]. rewrite R, E. cbn.
    by rewrite insert_id.
  - rewrite (IH t Hrest). unfold mkdir_plain, os_mkdir.
    rewrite resolve_with_dirs.
    rewrite (with_dirs_lookup_out _ t (c :: p)) by apply not_in_ancestors.
    destruct (t !! (c :: p)) as [[]|] eqn:E; [|done|done].
    unfold is_dir. cbn [resolve]. rewrite resolve_with_dirs.
    rewrite (with_dirs_lookup_out _ t (c :: p)) by apply not_in_ancestors.
    rewrite E. cbn. rewrite insert_id; [done|].
    by rewrite with_dirs_lookup_out by apply not_in_ancestors.
Qed.

Lemma with_dirs_subseteq (qs : list (list str)) t :
  Forall (fun q => t !! q <> Some RegularFile) qs -> t ⊆ with_dirs qs t.
Proof.
  intros H. apply map_subseteq_spec. intros q k Hq.
  destruct (decide (q ∈ qs)) as [Hin|Hout].
  - rewrite with_dirs_lookup_in by done.
    rewrite Forall_forall in H. specialize (H q Hin).
    destruct k; [done|]. by rewrite Hq in H.
  - by rewrite with_dirs_lookup_out.
Qed.

(** With a regular file in the way the call raises [FileExistsError] or
    [NotADirectoryError]. *)
Lemma mkdir_parents_blocked (p : list str) t :
  Exists (fun q => t !! q = Some RegularFile) (self_and_ancestors p) ->
  exists e t',
    mkdir_parents p true t = (Some e, t') /\ e <> E_NOENT /\ t ⊆ t'.
Proof.
  revert t. induction p as [|c p IH]; intros t H;
    [by apply Exists_nil in H|].
  cbn [self_and_ancestors] in H. apply Exists_cons in H.
  cbn [mkdir_parents os_mkdir].
  destruct (resolve p t) as [[]| |] eqn:R.
  - pose proof (proj1 (resolve_directory p t) R) as Hall.
    destruct H as [Hp|Hrest].
    + rewrite Hp. unfold is_dir. cbn [resolve]. rewrite R, Hp. cbn.
      by exists E_EXIST, t.
    + exfalso. apply Exists_exists in Hrest as (q & Hq & Hfile).
      rewrite Forall_forall in Hall. rewrite (Hall q Hq) in Hfile. done.
  - unfold is_dir. cbn [resolve]. rewrite R. cbn. by exists E_NOTDIR, t.
  - destruct (file_among_dec (self_and_ancestors p) t) as [Hrest|Hfree].
    + destruct (IH t Hrest) as (e & t' & -> & He & Hsub). by exists e, t'.
    + rewrite (mkdir_parents_ok p t Hfree).
      destruct H as [Hp|Hrest].
      * unfold mkdir_plain, os_mkdir. rewrite resolve_with_dirs.
        rewrite (with_dirs_lookup_out _ t (c :: p)) by apply not_in_ancestors.
        rewrite Hp. unfold is_dir. cbn [resolve].
        rewrite resolve_with_dirs.
        rewrite (with_dirs_lookup_out _ t (c :: p)) by apply not_in_ancestors.
        rewrite Hp. cbn. eexists E_EXIST, _. split; [done|]. split; [done|].
        by apply with_dirs_subseteq.
      * exfalso. apply Exists_exists in Hrest as (q & Hq & Hfile).
        rewrite Forall_forall in Hfree. by apply (Hfree q Hq).
  - unfold is_dir. cbn [resolve]. rewrite R. cbn. by exists E_NOTDIR, t.
Qed.

Lemma make_directories_ok (ds : list (list str)) :
  forall t : gmap (list str) kind,
    Forall (fun q => t !! q <> Some RegularFile)
           (concat (List.map self_and_ancestors ds)) ->
    exists t',
      make_directories ds t = (None, t')
      /\ t ⊆ t'
      /\ (forall q, q ∈ concat (List.map self_and_ancestors ds) ->
                    t' !! q = Some Directory)
      /\ (forall q, q ∉ concat (List.map self_and_ancestors ds) ->
                    t' !! q = t !! q).
Proof.
  induction ds as [|d ds IH]; intros t H.
  { exists t. repeat split; try done. by intros q ?%elem_of_nil. }
  cbn [List.map concat] in *. apply Forall_app in H as [Hd Hrest].
  cbn [make_directories]. rewrite (mkdir_parents_ok d t Hd).
  set (t1 := with_dirs (self_and_ancestors d) t).
  assert (Hrest1 : Forall (fun q => t1 !! q <> Some RegularFile)
                     (concat (List.map self_and_ancestors ds))).
  { apply Forall_forall. intros q Hq. unfold t1.
    destruct (decide (q ∈ self_and_ancestors d)) as [Hin|Hout].
    - by rewrite with_dirs_lookup_in.
    - rewrite with_dirs_lookup_out by done.
      rewrite Forall_forall in Hrest. by apply Hrest. }
  destruct (IH t1 Hrest1) as (t' & -> & Hsub & Hin & Hout).
  exists t'. split; [done|]. split; [|split].
  - etrans; [|exact Hsub]. by apply with_dirs_subseteq.
  - intros q Hq.
    destruct (decide (q ∈ concat (List.map self_and_ancestors ds)))
      as [Hr|Hr]; [by apply Hin|].
    rewrite (Hout q Hr). apply with_dirs_lookup_in.
    apply elem_of_app in Hq as [Hq|Hq]; done.
  - intros q Hq. apply not_elem_of_app in Hq as [Hq1 Hq2].
    rewrite (Hout q Hq2). by apply with_dirs_lookup_out.
Qed.

Lemma make_directories_blocked (ds : list (list str)) :
  forall t : gmap (list str) kind,
    Exists (fun q => t !! q = Some RegularFile)
           (concat (List.map self_and_ancestors ds)) ->
    exists e t',
      make_directories ds t = (Some e, t') /\ e <> E_NOENT /\ t ⊆ t'.
Proof.
  induction ds as [|d ds IH]; intros t H; [by apply Exists_nil in H|].
  cbn [List.map concat] in H. cbn [make_directories].
  destruct (file_among_dec (self_and_ancestors d) t) as [Hd|Hd].
  - destruct (mkdir_parents_blocked d t Hd) as (e & t' & -> & He & Hsub).
    by exists e, t'.
  - rewrite (mkdir_parents_ok d t Hd).
    pose proof (with_dirs_subseteq _ t Hd) as Hsub1.
    apply Exists_app in H as [H|H].
    { exfalso. apply Exists_exists in H as (q & Hq & Hfile).
      rewrite Forall_forall in Hd. by apply (Hd q Hq). }
    assert (H1 : Exists
                   (fun q => with_dirs (self_and_ancestors d) t !! q
                             = Some RegularFile)
                   (concat (List.map self_and_ancestors ds))).
    { apply Exists_exists in H as (q & Hq & Hfile). apply Exists_exists.
      exists q. split; [done|]. by eapply lookup_weaken. }
    destruct (IH _ H1) as (e & t' & -> & He & Hsub).
    exists e, t'. split; [done|]. split; [done|]. by etrans.
Qed.

Lemma setup_directories_eq (t : gmap (list str) kind) (w : World) :
  setup_directories t w =
  match make_directories directories t with
  | (None, t') =>
      (None, t',
       with_log directories_done_record (with_log directories_record w))
  | (Some e, t') => (Some e, t', with_log directories_record w)
  end.
Proof. reflexivity. Qed.

(** X14. When none of the directories of the list and none of their
    parents ([data], [data/chromadb], [data/security], [logs],
    [frontend], [frontend/public], [frontend/src]) is a regular file,
    [setup_directories] returns normally; afterwards each of these paths
    is a directory, every other entry of the tree is what it was, and
    the log has the two records of the function. *)
Theorem X14_directories_are_created
    (t : gmap (list str) kind) (w : World) :
  Forall (fun q => t !! q <> Some RegularFile) needed ->
  exists t',
    setup_directories t w
    = (None, t',
       with_log directories_done_record (with_log directories_record w))
    /\ Forall (fun q => t' !! q = Some Directory) needed
    /\ (forall q, q ∉ needed -> t' !! q = t !! q).
Proof.
  intros H. rewrite setup_directories_eq.
  destruct (make_directories_ok directories t H)
    as (t' & -> & _ & Hin & Hout).
  exists t'. split; [done|]. split; [|exact Hout].
  apply Forall_forall. exact Hin.
Qed.

Lemma X14_witness :
  exists t',
    setup_directories tree_partial world_fresh
    = (None, t',
       with_log directories_done_record
         (with_log directories_record world_fresh))
    /\ Forall (fun q => t' !! q = Some Directory) needed
    /\ (forall q, q ∉ needed -> t' !! q = tree_partial !! q).
Proof.
  apply (X14_directories_are_created tree_partial world_fresh).
  repeat (constructor; [vm_compute; discriminate|]). constructor.
Defined.

(** X15. [setup_directories] is idempotent: after a call that returned
    normally, a second call returns normally as well and leaves the tree
    as the first call left it. *)
Theorem X15_second_setup_changes_nothing
    (t t1 : gmap (list str) kind) (w w1 : World) :
  setup_directories t w = (None, t1, w1) ->
  fst (setup_directories t1 w1) = (None, t1).
Proof.
  rewrite !setup_directories_eq. intros Hfirst.
  destruct (file_among_dec needed t) as [Hb|Hfree].
  { destruct (make_directories_blocked directories t Hb)
      as (e & t' & E & _). by rewrite E in Hfirst. }
  destruct (make_directories_ok directories t Hfree)
    as (t' & E & _ & Hin & _).
  rewrite E in Hfirst. injection Hfirst as -> _.
  assert (Hfree1 : Forall (fun q => t1 !! q <> Some RegularFile) needed).
  { apply Forall_forall. intros q Hq. by rewrite (Hin q Hq). }
  destruct (make_directories_ok directories t1 Hfree1)
    as (t2 & -> & _ & Hin2 & Hout2).
  cbn [fst]. f_equal. apply map_eq. intros q.
  destruct (decide (q ∈ needed)) as [Hq|Hq].
  - by rewrite (Hin2 q Hq), (Hin q Hq).
  - by apply Hout2.
Qed.

Lemma X15_witness :
  fst (setup_directories
         (snd (fst (setup_directories tree_partial world_fresh)))
         (snd (setup_directories tree_partial world_fresh)))
  = (None, snd (fst (setup_directories tree_partial world_fresh))).
Proof.
  apply (X15_second_setup_changes_nothing tree_partial _ world_fresh).
  vm_compute. reflexivity.
Defined.

(** X16. [setup_directories] only adds: whether it returns normally or
    raises, every entry of the tree before the call is in the tree after
    it, with the same kind. *)
Theorem X16_setup_directories_only_adds
    (t : gmap (list str) kind) (w : World) :
  t ⊆ snd (fst (setup_directories t w)).
Proof.
  rewrite setup_directories_eq.
  destruct (file_among_dec needed t) as [Hb|Hfree].
  - destruct (make_directories_blocked directories t Hb)
      as (e & t' & -> & _ & Hsub). done.
  - destruct (make_directories_ok directories t Hfree)
      as (t' & -> & Hsub & _). done.
Qed.

(** X17. When one of the directories of the list or one of their parents
    is a regular file, [setup_directories] raises [FileExistsError] or
    [NotADirectoryError]: the exception leaves the function, and the
    closing record is not logged. *)
Theorem X17_regular_file_in_the_way
    (t : gmap (list str) kind) (w : World) :
  Exists (fun q => t !! q = Some RegularFile) needed ->
  exists e t',
    setup_directories t w = (Some e, t', with_log directories_record w)
    /\ (e = E_EXIST \/ e = E_NOTDIR).
Proof.
  intros H. rewrite setup_directories_eq.
  destruct (make_directories_blocked directories t H)
    as (e & t' & -> & He & _).
  exists e, t'. split; [done|]. destruct e; tauto.
Qed.

Lemma X17_witness :
  exists e t',
    setup_directories tree_data_is_file world_fresh
    = (Some e, t', with_log directories_record world_fresh)
    /\ (e = E_EXIST \/ e = E_NOTDIR).
Proof.
  apply (X17_regular_file_in_the_way tree_data_is_file world_fresh).
  left. vm_compute. reflexivity.
Defined.
